(** * The Blogger-to-Telegram sync handlers

    A shallow embedding of the two server files of the repository
    (src/unnamed/part_000, the server that captions posts through Gemini, and
    src/unnamed/part_001, the server that formats captions itself), with the
    properties of the sync cycle that the specification states about them.
    The two files hold two versions of the same [POST /api/sync] handler;
    they are embedded side by side, in [Part000] and [Part001], and every
    property is stated for each of them.

    The code is asynchronous JavaScript that talks to three remote services
    and to a SQLite file.  It is embedded in a state-and-exception monad over
    a [world]: the ledger table, the settings table, the process environment
    and the chronological trace of everything the handler did to the outside
    (HTTP calls with their answers, ledger inserts, console.error lines).
    The remote services are an arbitrary deterministic [network]: each answer
    may depend on the request and on the whole trace so far.  [await] is
    sequencing: one request is handled at a time.

    What the embedding takes for granted:
    - the JSON documents have the shape of the Blogger v3 and Telegram Bot
      APIs: the fields the handlers read are strings, lists or objects when
      they are present, and a post has an id;
    - the values of the request body are strings or missing;
    - the two tables exist and the database answers (the only statement
      that can fail is the insert of an id that is already there);
    - the tables give back the text that was put into them: ids and stored
      values are well-formed UTF-16 ([plain_text]), as the digit strings of
      Blogger ids and credentials are, and the statements about the tables
      themselves say so;
    - the SyntaxError of a body that is not JSON carries one fixed
      message here, [NOT_JSON], which stands for whatever the engine says
      about the body;
    - [console.log] progress lines are not part of the trace,
      [console.error] lines are. *)

From Stdlib Require Import NArith Ascii String List Lia.
From stdpp Require Import base option list gmap strings.

Set Default Proof Using "Type".
Local Open Scope N_scope.

(** ** JavaScript strings *)

(** A JavaScript string is a sequence of UTF-16 code units. *)
Abbreviation jsstring := (list N).

(** An ASCII literal of the source as code units. *)
Definition lit (s : string) : jsstring :=
  map N_of_ascii (list_ascii_of_string s).

Definition LT : N := 60.      (* < *)
Definition GT : N := 62.      (* > *)
Definition QUOTE : N := 34.   (* double quote *)
Definition LF : N := 10.      (* \n *)

(** U+1F517 (the link emoji of the call-to-action line) is the surrogate
    pair D83D DD17. *)
Definition LINK_EMOJI : jsstring := [55357; 56599].

(** A value of type [string | undefined]: [None] is [undefined]. *)
Definition truthy (v : option jsstring) : bool :=
  match v with
  | Some (_ :: _) => true
  | _ => false
  end.

(** [a || b] on such values (the caller passes [b] evaluated already when it
    is pure, or sequences it by hand when it is not). *)
Definition js_or (a b : option jsstring) : option jsstring :=
  if truthy a then a else b.

(** A template hole [${v}]: a string is itself, [undefined] prints as the
    word undefined. *)
Definition tpl (v : option jsstring) : jsstring :=
  match v with
  | Some s => s
  | None => lit "undefined"
  end.

(** [s.replace(/<[^>]*>/g, empty)].  At a [<] the pattern matches through the
    next [>] if there is one; if there is none it fails there (and at every
    later [<]), so the character is kept. *)
Definition has_gt (s : jsstring) : bool := existsb (N.eqb GT) s.

Fixpoint strip_tags_from (in_tag : bool) (s : jsstring) : jsstring :=
  match s with
  | [] => []
  | c :: s' =>
      if in_tag then
        (if c =? GT then strip_tags_from false s' else strip_tags_from true s')
      else if (c =? LT) && has_gt s' then strip_tags_from true s'
      else c :: strip_tags_from false s'
  end.

Definition strip_tags (s : jsstring) : jsstring := strip_tags_from false s.

(** [s.substring(0, n)] *)
Definition substring0 (n : nat) (s : jsstring) : jsstring := take n s.

(** [s.match(IMG)[1]] for the image pattern IMG of both handlers, which is
    [<img], then [[^>]+], then [src=] and a quote, then the captured group
    [([^Q>]+)] (Q the quote character), then a quote.  The result is the
    group of the leftmost match; the engine is greedy with backtracking: *)

Fixpoint strip_prefix (p s : jsstring) : option jsstring :=
  match p, s with
  | [], _ => Some s
  | a :: p', b :: s' => if a =? b then strip_prefix p' s' else None
  | _ :: _, [] => None
  end.

(** the longest run of characters that are neither a quote nor [>], and what
    follows it; *)
Fixpoint span_group (s : jsstring) : jsstring * jsstring :=
  match s with
  | [] => ([], [])
  | c :: s' =>
      if (c =? QUOTE) || (c =? GT) then ([], s)
      else let '(g, r) := span_group s' in (c :: g, r)
  end.

(** [src=], quote, group, quote anchored at the head of [s]: the group is the longest
    run (a shorter one is followed by a character of the run, not by the
    closing quote), it must be non-empty and the closing quote must follow; *)
Definition match_src (s : jsstring) : option jsstring :=
  match strip_prefix (lit "src=" ++ [QUOTE]) s with
  | Some r =>
      match span_group r with
      | ((_ :: _) as g, q :: _) => if q =? QUOTE then Some g else None
      | _ => None
      end
  | None => None
  end.

(** [[^>]*] followed by [match_src]: the greedy star takes the longest
    prefix first and gives characters back one at a time; *)
Fixpoint greedy_src (s : jsstring) : option jsstring :=
  match s with
  | [] => match_src []
  | c :: s' =>
      if c =? GT then match_src s
      else match greedy_src s' with
           | Some g => Some g
           | None => match_src s
           end
  end.

(** the whole pattern anchored at the head of [s] ([[^>]+] is one character
    that is not [>], then [[^>]*]); *)
Definition match_img_at (s : jsstring) : option jsstring :=
  match strip_prefix (lit "<img") s with
  | Some (c :: r) => if c =? GT then None else greedy_src r
  | _ => None
  end.

(** and the leftmost position at which it matches. *)
Fixpoint match_img (s : jsstring) : option jsstring :=
  match match_img_at s with
  | Some g => Some g
  | None =>
      match s with
      | [] => None
      | _ :: s' => match_img s'
      end
  end.

(** ** The data the handlers exchange *)

(** A post of the Blogger v3 [posts] listing, with the fields the handlers
    read.  Every field but the id may be missing from the JSON. *)
Record image := { image_url : option jsstring }.

Record post := {
  post_id : jsstring;
  post_title : option jsstring;
  post_content : option jsstring;
  post_url : option jsstring;
  post_images : option (list image);
}.

(** The body of the listing: [error] on an upstream-reported failure,
    [items] when there are posts (Blogger omits it when there are none). *)
Record blogger_error := { error_message : option jsstring }.

Record blogger_data := {
  data_error : option blogger_error;
  data_items : option (list post);
}.

(** What [await fetch(...)] gives: the promise rejects (no connection), or
    there is a response with its [ok] flag and its body, [None] when
    [response.json()] would reject because the body is not JSON. *)
Inductive fetch_result (A : Type) :=
  | FetchRejected (msg : jsstring)
  | FetchResponse (ok : bool) (json : option A).
Arguments FetchRejected {A} msg.
Arguments FetchResponse {A} ok json.

Record response (A : Type) := { ok : bool; json_body : option A }.
Arguments ok {A} _.
Arguments json_body {A} _.

(** A Telegram Bot API call: the endpoint and the JSON body
    ([parse_mode] is the constant HTML in every call and is left out).  The
    error document of a failed call is kept as [JSON.stringify] prints it. *)
Inductive telegram_body :=
  | SendMessage (chat_id text : jsstring)
  | SendPhoto (chat_id photo caption : jsstring).

Record telegram_request := { tg_url : jsstring; tg_body : telegram_body }.

(** [genAI.models.generateContent]: rejects, or answers with an optional
    text. *)
Inductive gemini_result :=
  | GeminiRejected (msg : jsstring)
  | GeminiText (text : option jsstring).

Inductive js_error :=
  | TypeError (msg : jsstring)
  | SyntaxError (msg : jsstring)
  | SqliteError (msg : jsstring)
  | Error (msg : jsstring).

Definition message (e : js_error) : jsstring :=
  match e with
  | TypeError m | SyntaxError m | SqliteError m | Error m => m
  end.

(** What a [console.error] line carries after its label. *)
Inductive log_detail :=
  | LogError (e : js_error)
  | LogTelegram (e : jsstring)
  | LogBlogger (e : blogger_error)
  | LogFlags (apiKey blogId botToken chatId : bool).

Inductive event :=
  | EvBlogger (url : jsstring) (r : fetch_result blogger_data)
  | EvTelegram (req : telegram_request) (r : fetch_result jsstring)
  | EvGemini (content : jsstring) (r : gemini_result)
  | EvInsertSynced (id : jsstring)
  | EvConsoleError (label : jsstring) (detail : log_detail).

(** The remote services.  An answer may depend on everything that happened
    before it. *)
Record network := {
  blogger : list event -> jsstring -> fetch_result blogger_data;
  telegram : list event -> telegram_request -> fetch_result jsstring;
  gemini : list event -> jsstring -> gemini_result;
}.

(** The tables of sync.db, [process.env], and the trace (oldest first). *)
Record world := {
  synced_posts : gset jsstring;
  settings : gmap string jsstring;
  env : gmap string jsstring;
  trace : list event;
}.

Definition emit (e : event) (w : world) : world :=
  {| synced_posts := synced_posts w; settings := settings w;
     env := env w; trace := trace w ++ [e] |}.

(** What the handler sends back: the status code and the JSON object. *)
Inductive json_value :=
  | JString (s : jsstring)
  | JNumber (n : nat).

Record http_response := {
  status : nat;
  body : list (string * json_value);
}.

Definition field (k : string) (r : http_response) : option json_value :=
  snd <$> find (fun kv => bool_decide (fst kv = k)) (body r).

(** ** The monad of handler code *)

Inductive outcome (A : Type) :=
  | Returned (a : A)
  | Thrown (e : js_error).
Arguments Returned {A} a.
Arguments Thrown {A} e.

Definition M (A : Type) : Type := world -> outcome A * world.

Definition ret {A} (a : A) : M A := fun w => (Returned a, w).

Definition bind {A B} (m : M A) (k : A -> M B) : M B :=
  fun w =>
    match m w with
    | (Returned a, w') => k a w'
    | (Thrown e, w') => (Thrown e, w')
    end.

Definition throw {A} (e : js_error) : M A := fun w => (Thrown e, w).

(** [try { m } catch (e) { h e }] *)
Definition try_catch {A} (m : M A) (h : js_error -> M A) : M A :=
  fun w =>
    match m w with
    | (Returned a, w') => (Returned a, w')
    | (Thrown e, w') => h e w'
    end.

#[global] Instance M_ret : MRet M := @ret.
#[global] Instance M_bind : MBind M := fun A B k m => bind m k.

Definition console_error (label : jsstring) (d : log_detail) : M unit :=
  fun w => (Returned tt, emit (EvConsoleError label d) w).

(** ** The database *)

(** [db.prepare(SELECT value FROM settings WHERE key = ?).get(key)], then
    [row?.value || process.env[key]]. *)
Definition getSetting (key : string) : M (option jsstring) :=
  fun w => (Returned (js_or (settings w !! key) (env w !! key)), w).

(** [INSERT OR REPLACE INTO settings] *)
Definition setSetting (key : string) (value : jsstring) : M unit :=
  fun w =>
    (Returned tt,
     {| synced_posts := synced_posts w; settings := <[key := value]> (settings w);
        env := env w; trace := trace w |}).

(** [db.prepare(SELECT 1 FROM synced_posts WHERE post_id = ?).get(id)],
    read for its truth value. *)
Definition select_synced (id : jsstring) : M bool :=
  fun w => (Returned (bool_decide (id ∈ synced_posts w)), w).

(** [db.prepare(INSERT INTO synced_posts (post_id) VALUES (?)).run(id)]:
    [post_id] is the primary key, a second insert of an id throws. *)
Definition insert_synced (id : jsstring) : M unit :=
  fun w =>
    if bool_decide (id ∈ synced_posts w) then
      (Thrown (SqliteError (lit "UNIQUE constraint failed: synced_posts.post_id")), w)
    else
      (Returned tt,
       emit (EvInsertSynced id)
         {| synced_posts := {[ id ]} ∪ synced_posts w; settings := settings w;
            env := env w; trace := trace w |}).

(** ** Awaiting the network *)

(** [await r.json()] *)
Definition json {A} (r : response A) : M A :=
  match json_body r with
  | Some j => mret j
  | None => throw (SyntaxError (lit "Unexpected token in JSON"))
  end.

Definition DOWNLOAD_NOW : jsstring :=
  [LF; LF] ++ LINK_EMOJI ++ lit " Download Now: ".

Definition TELEGRAM_API : jsstring := lit "https://api.telegram.org/bot".

Definition sendMessage_request (botToken chatId : option jsstring) (text : jsstring)
  : telegram_request :=
  {| tg_url := TELEGRAM_API ++ tpl botToken ++ lit "/sendMessage";
     tg_body := SendMessage (tpl chatId) text |}.

Definition sendPhoto_request (botToken chatId imageUrl : option jsstring)
    (caption : jsstring) : telegram_request :=
  {| tg_url := TELEGRAM_API ++ tpl botToken ++ lit "/sendPhoto";
     tg_body := SendPhoto (tpl chatId) (tpl imageUrl) caption |}.

Definition is_sendMessage (r : telegram_request) : bool :=
  match tg_body r with SendMessage _ _ => true | SendPhoto _ _ _ => false end.

Definition request_text (r : telegram_request) : jsstring :=
  match tg_body r with SendMessage _ t => t | SendPhoto _ _ c => c end.

(** [post.images?.[0]?.url] *)
Definition first_image_url (p : post) : option jsstring :=
  match post_images p with
  | Some (i :: _) => image_url i
  | _ => None
  end.

Definition UNDEFINED_MATCH : js_error :=
  TypeError (lit "Cannot read properties of undefined (reading 'match')").

Section WithNetwork.

Variable net : network.

(** [await fetch(bloggerUrl)] *)
Definition fetch_blogger (url : jsstring) : M (response blogger_data) :=
  fun w =>
    let r := blogger net (trace w) url in
    let w' := emit (EvBlogger url r) w in
    match r with
    | FetchRejected msg => (Thrown (TypeError msg), w')
    | FetchResponse o j => (Returned {| ok := o; json_body := j |}, w')
    end.

(** [await fetch(telegramUrl, { method: POST, ..., body })] *)
Definition fetch_telegram (req : telegram_request) : M (response jsstring) :=
  fun w =>
    let r := telegram net (trace w) req in
    let w' := emit (EvTelegram req r) w in
    match r with
    | FetchRejected msg => (Thrown (TypeError msg), w')
    | FetchResponse o j => (Returned {| ok := o; json_body := j |}, w')
    end.

(** [sendToTelegram], the same text in both files (part_000 lines 79-122,
    part_001 lines 76-119).  It calls itself once more without the image
    when the photo is refused; [fuel] bounds the depth of that recursion
    and [None] is returned when it runs out. *)
Fixpoint sendToTelegram (fuel : nat) (message url : jsstring)
    (imageUrl : option jsstring) : M (option unit) :=
  match fuel with
  | O => mret None
  | S fuel' =>
      botToken ← getSetting "TELEGRAM_BOT_TOKEN";
      chatId ← getSetting "TELEGRAM_CHANNEL_ID";
      if negb (truthy botToken) || negb (truthy chatId) then
        throw (Error (lit "Telegram credentials missing"))
      else
        let fullMessage := message ++ DOWNLOAD_NOW ++ url in
        let req :=
          if truthy imageUrl
          then sendPhoto_request botToken chatId imageUrl fullMessage
          else sendMessage_request botToken chatId fullMessage in
        response ← fetch_telegram req;
        if negb (ok response) then
          errorData ← json response;
          console_error (lit "Telegram API Error:") (LogTelegram errorData);;
          if truthy imageUrl then sendToTelegram fuel' message url None
          else throw (Error (lit "Telegram failed: " ++ errorData))
        else mret (Some tt)
  end.

End WithNetwork.

(** The image of a post (part_000 lines 171-175, part_001 lines 183-187):
    the first structured image, else the first [<img>] of the body. *)
Definition resolve_image (p : post) : M (option jsstring) :=
  let imageUrl := first_image_url p in
  if negb (truthy imageUrl) then
    match post_content p with
    | None => throw UNDEFINED_MATCH
    | Some content =>
        match match_img content with
        | Some g => mret (Some g)
        | None => mret imageUrl
        end
    end
  else mret imageUrl.

(** The four values of a sync request's body. *)
Record sync_body := {
  BLOGGER_API_KEY : option jsstring;
  BLOGGER_BLOG_ID : option jsstring;
  TELEGRAM_BOT_TOKEN : option jsstring;
  TELEGRAM_CHANNEL_ID : option jsstring;
}.

(** [override || getSetting(key)]: the settings are read only when the
    override is falsy. *)
Definition resolve (override : option jsstring) (key : string) : M (option jsstring) :=
  if truthy override then mret override else getSetting key.

Definition bloggerUrl (blogId apiKey : option jsstring) : jsstring :=
  lit "https://www.googleapis.com/blogger/v3/blogs/" ++ tpl blogId
    ++ lit "/posts?key=" ++ tpl apiKey ++ lit "&maxResults=10".

Definition json_response (code : nat) (fields : list (string * json_value))
  : http_response :=
  {| status := code; body := fields |}.

(** [`${details}\n\n(link) Download Now: ${post.url}`] *)
Definition fullMessage_of (details : jsstring) (p : post) : jsstring :=
  details ++ DOWNLOAD_NOW ++ tpl (post_url p).

(** The request of the first delivery attempt: a photo with the message as
    caption when there is an image, the message alone otherwise. *)
Definition first_request (botToken chatId imageUrl : option jsstring)
    (fullMessage : jsstring) : telegram_request :=
  if truthy imageUrl
  then sendPhoto_request botToken chatId imageUrl fullMessage
  else sendMessage_request botToken chatId fullMessage.

(** ** part_000: the server that captions through Gemini *)

Module Part000.
Section Handler.

Variable net : network.

(** [extractMovieDetails(content)], lines 48-77.  The prompt is the fixed
    template around [content]; the trace keeps the content. *)
Definition extractMovieDetails (content : option jsstring) : M jsstring :=
  fun w =>
    let r := gemini net (trace w) (tpl content) in
    let w' := emit (EvGemini (tpl content) r) w in
    match r with
    | GeminiText text =>
        (Returned (tpl (js_or text (Some (lit "Failed to extract details.")))), w')
    | GeminiRejected msg =>
        (Returned (lit "Error extracting details."),
         emit (EvConsoleError (lit "Gemini Error:") (LogError (Error msg))) w')
    end.

(** The body of the loop, lines 166-199. *)
Definition sync_post (botToken chatId : option jsstring) (syncedCount : nat)
    (p : post) : M nat :=
  exists_ ← select_synced (post_id p);
  if negb exists_ then
    imageUrl ← resolve_image p;
    details ← extractMovieDetails (post_content p);
    let fullMessage := fullMessage_of details p in
    telRes ← fetch_telegram net (first_request botToken chatId imageUrl fullMessage);
    if ok telRes then
      insert_synced (post_id p);;
      mret (S syncedCount)
    else mret syncedCount
  else mret syncedCount.

(** [for (const post of data.items)], lines 165-200. *)
Fixpoint sync_posts (botToken chatId : option jsstring) (posts : list post)
    (syncedCount : nat) : M nat :=
  match posts with
  | [] => mret syncedCount
  | p :: rest =>
      n ← sync_post botToken chatId syncedCount p;
      sync_posts botToken chatId rest n
  end.

(** The cycle once the configuration is complete, lines 158-201. *)
Definition sync_configured (apiKey blogId botToken chatId : option jsstring)
  : M http_response :=
  response ← fetch_blogger net (bloggerUrl blogId apiKey);
  data ← json response;
  match data_items data with
  | None =>
      mret (json_response 200
              [("message", JString (lit "No posts found")); ("synced", JNumber 0)])
  | Some items =>
      syncedCount ← sync_posts botToken chatId items 0;
      mret (json_response 200
              [("message", JString (lit "Sync complete"));
               ("synced", JNumber syncedCount)])
  end.

(** [catch (error)], lines 202-205. *)
Definition on_sync_error (error : js_error) : M http_response :=
  console_error (lit "Sync Error:") (LogError error);;
  mret (json_response 500 [("error", JString (message error))]).

(** [app.post(/api/sync)], lines 143-206. *)
Definition post_api_sync (req : sync_body) : M http_response :=
  try_catch
    (apiKey ← resolve (BLOGGER_API_KEY req) "BLOGGER_API_KEY";
     blogId ← resolve (BLOGGER_BLOG_ID req) "BLOGGER_BLOG_ID";
     botToken ← resolve (TELEGRAM_BOT_TOKEN req) "TELEGRAM_BOT_TOKEN";
     chatId ← resolve (TELEGRAM_CHANNEL_ID req) "TELEGRAM_CHANNEL_ID";
     if negb (truthy apiKey) || negb (truthy blogId)
        || negb (truthy botToken) || negb (truthy chatId)
     then mret (json_response 400 [("error", JString (lit "Missing configuration"))])
     else sync_configured apiKey blogId botToken chatId)
    on_sync_error.

End Handler.
End Part000.

(** ** part_001: the server that formats captions itself *)

Module Part001.
Section Handler.

Variable net : network.

(** [extractMovieDetails(post)], lines 67-74. *)
Definition extractMovieDetails (p : post) : M jsstring :=
  let title := tpl (js_or (post_title p) (Some (lit "New Movie Post"))) in
  let content := tpl (js_or (post_content p) (Some [])) in
  let snippet := substring0 200 (strip_tags content) ++ lit "..." in
  mret (lit "<b>" ++ title ++ lit "</b>" ++ [LF; LF] ++ snippet).

(** The body of the [try] of the loop, lines 178-230. *)
Definition sync_post (botToken chatId : option jsstring) (syncedCount : nat)
    (p : post) : M nat :=
  exists_ ← select_synced (post_id p);
  if negb exists_ then
    imageUrl ← resolve_image p;
    details ← extractMovieDetails p;
    let fullMessage := fullMessage_of details p in
    telRes ← fetch_telegram net (first_request botToken chatId imageUrl fullMessage);
    if ok telRes then
      insert_synced (post_id p);;
      mret (S syncedCount)
    else
      telError ← json telRes;
      console_error (lit "Telegram Send Failed:") (LogTelegram telError);;
      if truthy imageUrl then
        textOnlyRes ← fetch_telegram net (sendMessage_request botToken chatId fullMessage);
        if ok textOnlyRes then
          insert_synced (post_id p);;
          mret (S syncedCount)
        else mret syncedCount
      else mret syncedCount
  else mret syncedCount.

(** One turn of the loop: the [try] and its [catch (postError)],
    lines 177-233. *)
Definition try_sync_post (botToken chatId : option jsstring) (syncedCount : nat)
    (p : post) : M nat :=
  try_catch (sync_post botToken chatId syncedCount p)
    (fun postError =>
       console_error (lit "Error processing post " ++ post_id p ++ lit ":")
         (LogError postError);;
       mret syncedCount).

(** [for (const post of postsToProcess)], lines 176-234. *)
Fixpoint sync_posts (botToken chatId : option jsstring) (posts : list post)
    (syncedCount : nat) : M nat :=
  match posts with
  | [] => mret syncedCount
  | p :: rest =>
      n ← try_sync_post botToken chatId syncedCount p;
      sync_posts botToken chatId rest n
  end.

(** [data.items.slice(0, 3)] *)
Definition postsToProcess (items : list post) : list post := take 3 items.

(** The cycle once the configuration is complete, lines 157-235. *)
Definition sync_configured (apiKey blogId botToken chatId : option jsstring)
  : M http_response :=
  response ← fetch_blogger net (bloggerUrl blogId apiKey);
  data ← json response;
  match data_error data with
  | Some e =>
      console_error (lit "Blogger API Error:") (LogBlogger e);;
      mret (json_response 400
              [("error",
                JString (lit "Blogger API Error: "
                           ++ tpl (js_or (error_message e) (Some (lit "Unknown error")))))])
  | None =>
      match data_items data with
      | None =>
          mret (json_response 200
                  [("message", JString (lit "No posts found")); ("synced", JNumber 0)])
      | Some items =>
          syncedCount ← sync_posts botToken chatId (postsToProcess items) 0;
          mret (json_response 200
                  [("message", JString (lit "Sync complete"));
                   ("synced", JNumber syncedCount)])
      end
  end.

(** [catch (error)], lines 236-239. *)
Definition on_sync_error (error : js_error) : M http_response :=
  console_error (lit "Global Sync Error:") (LogError error);;
  mret (json_response 500 [("error", JString (lit "Sync failed: " ++ message error))]).

(** [app.post(/api/sync)], lines 142-240. *)
Definition post_api_sync (req : sync_body) : M http_response :=
  try_catch
    (apiKey ← resolve (BLOGGER_API_KEY req) "BLOGGER_API_KEY";
     blogId ← resolve (BLOGGER_BLOG_ID req) "BLOGGER_BLOG_ID";
     botToken ← resolve (TELEGRAM_BOT_TOKEN req) "TELEGRAM_BOT_TOKEN";
     chatId ← resolve (TELEGRAM_CHANNEL_ID req) "TELEGRAM_CHANNEL_ID";
     if negb (truthy apiKey) || negb (truthy blogId)
        || negb (truthy botToken) || negb (truthy chatId)
     then
       console_error (lit "Sync failed: Missing configuration")
         (LogFlags (truthy apiKey) (truthy blogId) (truthy botToken) (truthy chatId));;
       mret (json_response 400
               [("error", JString (lit "Missing configuration. Please check your settings."))])
     else sync_configured apiKey blogId botToken chatId)
    on_sync_error.

End Handler.
End Part001.

(** ** The vocabulary of the properties *)

(** [wp m Q w]: running [m] from [w] ends in an outcome and a world that
    satisfy [Q].  Every handler computation is a total function of the
    world, so this is total correctness. *)
Definition wp {A} (m : M A) (Q : outcome A → world → Prop) (w : world) : Prop :=
  Q (m w).1 (m w).2.

(** The events of a trace that are calls to a remote service. *)
Definition is_network_call (e : event) : bool :=
  match e with
  | EvBlogger _ _ | EvTelegram _ _ | EvGemini _ _ => true
  | EvInsertSynced _ | EvConsoleError _ _ => false
  end.

Definition is_telegram_call (e : event) : bool :=
  match e with
  | EvTelegram _ _ => true
  | _ => false
  end.

Definition is_insert (e : event) : bool :=
  match e with
  | EvInsertSynced _ => true
  | _ => false
  end.

(** Within [evs], Telegram accepted a message composed for [p] and the next
    thing that happened was the ledger insert of [p]'s id. *)
Definition delivered_then_recorded (p : post) (evs : list event) : Prop :=
  ∃ pre req j details rest,
    evs = pre ++ EvTelegram req (FetchResponse true j)
              :: EvInsertSynced (post_id p) :: rest
    ∧ request_text req = fullMessage_of details p.

(** What happened between two worlds of one run. *)
Definition new_events (w w' : world) : list event :=
  drop (length (trace w)) (trace w').

Definition network_calls (evs : list event) : list event :=
  filter (λ e, is_network_call e = true) evs.

Definition telegram_calls (evs : list event) : list event :=
  filter (λ e, is_telegram_call e = true) evs.

Definition inserts (evs : list event) : list event :=
  filter (λ e, is_insert e = true) evs.

Definition console_errors (evs : list event) : list event :=
  filter (λ e, match e with EvConsoleError _ _ => true | _ => false end = true) evs.

(** The value a configuration key resolves to for a request. *)
Definition resolved (w : world) (override : option jsstring) (key : string)
  : option jsstring :=
  match (resolve override key w).1 with
  | Returned v => v
  | Thrown _ => None
  end.

(** All four required values resolve to something truthy. *)
Definition configured (w : world) (req : sync_body) : bool :=
  truthy (resolved w (BLOGGER_API_KEY req) "BLOGGER_API_KEY")
  && truthy (resolved w (BLOGGER_BLOG_ID req) "BLOGGER_BLOG_ID")
  && truthy (resolved w (TELEGRAM_BOT_TOKEN req) "TELEGRAM_BOT_TOKEN")
  && truthy (resolved w (TELEGRAM_CHANNEL_ID req) "TELEGRAM_CHANNEL_ID").

Definition MISSING_000 : http_response :=
  json_response 400 [("error", JString (lit "Missing configuration"))].

Definition MISSING_001 : http_response :=
  json_response 400
    [("error", JString (lit "Missing configuration. Please check your settings."))].

Definition SYNC_COMPLETE (synced : nat) : http_response :=
  json_response 200
    [("message", JString (lit "Sync complete")); ("synced", JNumber synced)].

Definition NO_POSTS : http_response :=
  json_response 200
    [("message", JString (lit "No posts found")); ("synced", JNumber 0)].

(** The four values of a request as the handler resolves them. *)
Definition apiKey_of (w : world) (req : sync_body) : option jsstring :=
  resolved w (BLOGGER_API_KEY req) "BLOGGER_API_KEY".
Definition blogId_of (w : world) (req : sync_body) : option jsstring :=
  resolved w (BLOGGER_BLOG_ID req) "BLOGGER_BLOG_ID".
Definition botToken_of (w : world) (req : sync_body) : option jsstring :=
  resolved w (TELEGRAM_BOT_TOKEN req) "TELEGRAM_BOT_TOKEN".
Definition chatId_of (w : world) (req : sync_body) : option jsstring :=
  resolved w (TELEGRAM_CHANNEL_ID req) "TELEGRAM_CHANNEL_ID".

(** What one turn of a loop may do for post [p], from count [n] and world
    [w]: it leaves the ledger alone and the count as it was (or throws), or
    it inserts the id of [p], new to the ledger, right after Telegram
    accepted a message composed for [p], and counts it. *)
Definition post_effect (p : post) (n : nat) (w : world)
    (r : outcome nat) (w' : world) : Prop :=
  settings w' = settings w ∧ env w' = env w ∧
  ∃ evs, trace w' = trace w ++ evs ∧
    ((synced_posts w' = synced_posts w ∧ inserts evs = []
      ∧ (r = Returned n ∨ ∃ e, r = Thrown e))
     ∨ ((post_id p ∉ synced_posts w)
        ∧ synced_posts w' = {[post_id p]} ∪ synced_posts w
        ∧ r = Returned (S n)
        ∧ ∃ pre req j details,
            evs = pre ++ [EvTelegram req (FetchResponse true j);
                          EvInsertSynced (post_id p)]
            ∧ request_text req = fullMessage_of details p
            ∧ inserts pre = [])).

(** What a whole loop over [posts] may do: the ledger only grows, every new
    id is the id of one of the posts, delivered and then recorded, and the
    count grows by the number of inserts. *)
Definition posts_effect (posts : list post) (n : nat) (w : world)
    (r : outcome nat) (w' : world) : Prop :=
  settings w' = settings w ∧ env w' = env w ∧
  ∃ evs, trace w' = trace w ++ evs
    ∧ synced_posts w ⊆ synced_posts w'
    ∧ (∀ id, id ∈ synced_posts w' → id ∉ synced_posts w →
         ∃ p, p ∈ posts ∧ post_id p = id ∧ delivered_then_recorded p evs)
    ∧ (∀ m, r = Returned m → m = (n + length (inserts evs))%nat).

(** Post [p] is one of the items of a listing fetched within [evs]. *)
Definition fetched (p : post) (evs : list event) : Prop :=
  ∃ url o data items,
    EvBlogger url (FetchResponse o (Some data)) ∈ evs
    ∧ data_items data = Some items ∧ p ∈ items.

(** Telegram accepted, within [evs], a message composed for a post whose id
    is [id]. *)
Definition delivery_accepted (id : jsstring) (evs : list event) : Prop :=
  ∃ p req j details,
    post_id p = id ∧ request_text req = fullMessage_of details p
    ∧ EvTelegram req (FetchResponse true j) ∈ evs.

Definition UPSTREAM_ERROR (e : blogger_error) : http_response :=
  json_response 400
    [("error",
      JString (lit "Blogger API Error: "
                 ++ tpl (js_or (error_message e) (Some (lit "Unknown error")))))].

(** The world after the listing has been fetched. *)
Definition after_fetch (net : network) (w : world) (req : sync_body) : world :=
  let url := bloggerUrl (blogId_of w req) (apiKey_of w req) in
  emit (EvBlogger url (blogger net (trace w) url)) w.

(** The listing a configured request gets, when it is a JSON document. *)
Definition listing (net : network) (w : world) (req : sync_body)
  : option blogger_data :=
  match blogger net (trace w) (bloggerUrl (blogId_of w req) (apiKey_of w req)) with
  | FetchResponse _ (Some data) => Some data
  | _ => None
  end.

(** What a whole cycle may do to the ledger: it only grows, and every new id
    is the id of a fetched post, recorded right after Telegram accepted a
    message composed for that post. *)
Definition cycle_effect (w w' : world) : Prop :=
  ∃ evs, trace w' = trace w ++ evs
    ∧ synced_posts w ⊆ synced_posts w'
    ∧ (∀ id, id ∈ synced_posts w' → id ∉ synced_posts w →
         ∃ p, post_id p = id ∧ fetched p evs ∧ delivered_then_recorded p evs).

(** ** Sample feeds, services and requests *)

Definition sample_post (id : string) (content : option jsstring)
    (images : option (list image)) : post :=
  {| post_id := lit id;
     post_title := Some (lit "Movie " ++ lit id);
     post_content := content;
     post_url := Some (lit "https://blog.example/" ++ lit id);
     post_images := images |}.

(** A post with a body and no image, *)
Definition text_post (id : string) : post :=
  sample_post id (Some (lit "<p>Plot of the movie</p>")) None.

(** a post with a structured image, *)
Definition photo_post (id : string) : post :=
  sample_post id (Some (lit "<p>Poster inside</p>"))
    (Some [ {| image_url := Some (lit "https://img.example/poster.png") |} ]).

(** and a post that came without body and without images. *)
Definition bare_post (id : string) : post := sample_post id None None.

Definition feed_of (items : list post) : fetch_result blogger_data :=
  FetchResponse true (Some {| data_error := None; data_items := Some items |}).

(** The answer of Blogger to a request with a bad key. *)
Definition feed_error : fetch_result blogger_data :=
  FetchResponse false
    (Some {| data_error := Some {| error_message := Some (lit "API key not valid") |};
             data_items := None |}).

Definition accepted : fetch_result jsstring := FetchResponse true (Some (lit "{}")).
Definition refused : fetch_result jsstring :=
  FetchResponse false (Some (lit "{error_code:400}")).

(** A network that answers the same whatever happened before. *)
Definition static_net (feed : fetch_result blogger_data)
    (tg : telegram_request → fetch_result jsstring) : network :=
  {| blogger := λ _ _, feed;
     telegram := λ _ req, tg req;
     gemini := λ _ _, GeminiText (Some (lit "Title and plot")) |}.

Definition accept_all (req : telegram_request) : fetch_result jsstring := accepted.
Definition refuse_all (req : telegram_request) : fetch_result jsstring := refused.
Definition refuse_text (req : telegram_request) : fetch_result jsstring :=
  if is_sendMessage req then refused else accepted.
Definition refuse_photo (req : telegram_request) : fetch_result jsstring :=
  if is_sendMessage req then accepted else refused.

Definition fresh_world : world :=
  {| synced_posts := ∅; settings := ∅; env := ∅; trace := [] |}.

Definition full_request : sync_body :=
  {| BLOGGER_API_KEY := Some (lit "key");
     BLOGGER_BLOG_ID := Some (lit "42");
     TELEGRAM_BOT_TOKEN := Some (lit "token");
     TELEGRAM_CHANNEL_ID := Some (lit "@channel") |}.

Definition no_token_request : sync_body :=
  {| BLOGGER_API_KEY := Some (lit "key");
     BLOGGER_BLOG_ID := Some (lit "42");
     TELEGRAM_BOT_TOKEN := Some [];
     TELEGRAM_CHANNEL_ID := Some (lit "@channel") |}.

Definition four_posts : list post :=
  [text_post "p1"; text_post "p2"; text_post "p3"; text_post "p4"].

(** A world whose ledger already has p1 and p2. *)
Definition warm_world : world :=
  {| synced_posts := {[ lit "p1"; lit "p2" ]}; settings := ∅; env := ∅; trace := [] |}.

Definition two_posts : list post := [text_post "p1"; photo_post "p2"].

Definition two_posts_data : blogger_data :=
  {| data_error := None; data_items := Some two_posts |}.

(** The world after the retry of a refused photo was accepted: the four
    events of the turn and the id in the ledger. *)
Definition after_retry_accepted (w : world) (id : jsstring)
    (photo retry : telegram_request) (e : jsstring) (j : option jsstring) : world :=
  {| synced_posts := {[ id ]} ∪ synced_posts w;
     settings := settings w;
     env := env w;
     trace := trace w ++
       [EvTelegram photo (FetchResponse false (Some e));
        EvConsoleError (lit "Telegram Send Failed:") (LogTelegram e);
        EvTelegram retry (FetchResponse true j);
        EvInsertSynced id] |}.

(** The world after the photo was refused and the retry got the answer [r]
    (refused as well, or not sent at all): three events, the ledger as it
    was. *)
Definition after_retry_failed (w : world) (photo retry : telegram_request)
    (e : jsstring) (r : fetch_result jsstring) : world :=
  {| synced_posts := synced_posts w;
     settings := settings w;
     env := env w;
     trace := trace w ++
       [EvTelegram photo (FetchResponse false (Some e));
        EvConsoleError (lit "Telegram Send Failed:") (LogTelegram e);
        EvTelegram retry r] |}.

(** The [ok] flags of the Telegram answers of a trace, in order (a call that
    could not be sent counts as not ok). *)
Definition telegram_answers (evs : list event) : list bool :=
  omap (λ e, match e with
             | EvTelegram _ (FetchResponse o _) => Some o
             | EvTelegram _ (FetchRejected _) => Some false
             | _ => None
             end) evs.

(** The message part_001 composes for the photo post p2. *)
Definition p2_message : jsstring :=
  fullMessage_of (lit "<b>Movie p2</b>" ++ [LF; LF] ++ lit "Poster inside...")
    (photo_post "p2").

(** Blogger lists the photo post and Telegram refuses every call. *)
Definition refusing_net : network :=
  static_net (feed_of [photo_post "p2"]) refuse_all.

(** Blogger lists the photo post and Telegram refuses photos only. *)
Definition no_photo_net : network :=
  static_net (feed_of [photo_post "p2"]) refuse_photo.

(** Blogger lists p1 (text) and p2 (photo); Telegram refuses text. *)
Definition no_text_net : network :=
  static_net (feed_of two_posts) refuse_text.

(** Blogger answers with an error document. *)
Definition bad_key_net : network := static_net feed_error accept_all.

Definition bad_key : blogger_error :=
  {| error_message := Some (lit "API key not valid") |}.

(** Blogger lists a post without body before a good one. *)
Definition bare_first_net : network :=
  static_net (feed_of [bare_post "p1"; text_post "p2"]) accept_all.

(** Blogger lists four new posts and Telegram accepts everything. *)
Definition four_posts_net : network := static_net (feed_of four_posts) accept_all.

(** ** More vocabulary: what the rest of the code is measured by *)

(** [s] still holds a tag: a [<] with a [>] somewhere after it. *)
Fixpoint has_tag (s : jsstring) : bool :=
  match s with
  | [] => false
  | c :: s' => ((c =? LT) && has_gt s') || has_tag s'
  end.

(** A character the image pattern lets into the captured group. *)
Definition group_char (c : N) : bool := negb ((c =? QUOTE) || (c =? GT)).

(** The ids of the ledger inserts of a trace, in order. *)
Definition inserted_ids (evs : list event) : list jsstring :=
  omap (λ e, match e with EvInsertSynced id => Some id | _ => None end) evs.

Definition gemini_calls (evs : list event) : list event :=
  filter (λ e, match e with EvGemini _ _ => true | _ => false end = true) evs.

Definition blogger_calls (evs : list event) : list event :=
  filter (λ e, match e with EvBlogger _ _ => true | _ => false end = true) evs.

(** The items of the listing a request gets (none when there is no
    listing). *)
Definition listed_items (net : network) (w : world) (req : sync_body) : list post :=
  match listing net w req with
  | Some data => default [] (data_items data)
  | None => []
  end.

(** The client's check before it posts the form (src/App.tsx, lines 60, 97
    and 113): all four fields are truthy. *)
Definition isConfigured (formData : sync_body) : bool :=
  truthy (BLOGGER_API_KEY formData) && truthy (BLOGGER_BLOG_ID formData)
  && truthy (TELEGRAM_BOT_TOKEN formData) && truthy (TELEGRAM_CHANNEL_ID formData).

(** A request with an empty body. *)
Definition bare_request : sync_body :=
  {| BLOGGER_API_KEY := None; BLOGGER_BLOG_ID := None;
     TELEGRAM_BOT_TOKEN := None; TELEGRAM_CHANNEL_ID := None |}.


(** A world whose settings table holds a bot token and a channel. *)
Definition telegram_world : world :=
  {| synced_posts := ∅;
     settings := <["TELEGRAM_BOT_TOKEN" := lit "token"]>
                   (<["TELEGRAM_CHANNEL_ID" := lit "@channel"]> ∅);
     env := ∅; trace := [] |}.

(** What one call of [sendToTelegram] may do, from world [w]: nothing but
    Telegram calls and console lines, at most two calls (one without an
    image); it returns after exactly one accepted call, the last one, and
    throws when no call was accepted. *)
Definition sendToTelegram_effect (imageUrl : option jsstring) (w : world)
    (r : outcome (option unit)) (w' : world) : Prop :=
  synced_posts w' = synced_posts w ∧ settings w' = settings w ∧ env w' = env w ∧
  ∃ evs, trace w' = trace w ++ evs
    ∧ network_calls evs = telegram_calls evs
    ∧ inserts evs = []
    ∧ ((r = Returned (Some tt)
        ∧ (telegram_answers evs = [true]
           ∨ (telegram_answers evs = [false; true] ∧ truthy imageUrl = true)))
       ∨ ((∃ e, r = Thrown e)
          ∧ (telegram_answers evs = [] ∨ telegram_answers evs = [false]
             ∨ (telegram_answers evs = [false; false] ∧ truthy imageUrl = true)))).

(** World [w] with the events [evs] added to its trace. *)
Definition after_events (w : world) (evs : list event) : world :=
  {| synced_posts := synced_posts w; settings := settings w; env := env w;
     trace := trace w ++ evs |}.

Definition NOT_JSON : js_error := SyntaxError (lit "Unexpected token in JSON").

(** The ledger against the trace, over a loop: the settings and the
    environment are as they were, the ledger is the old one plus the ids
    the trace shows as inserted, each of them new, inserted once and the id
    of one of the posts, and the count grew by their number. *)
Definition ledger_log (posts : list post) (n : nat) (w : world)
    (r : outcome nat) (w' : world) : Prop :=
  settings w' = settings w ∧ env w' = env w ∧
  ∃ evs, trace w' = trace w ++ evs
    ∧ synced_posts w' = list_to_set (inserted_ids evs) ∪ synced_posts w
    ∧ NoDup (inserted_ids evs)
    ∧ (∀ id, id ∈ inserted_ids evs → (id ∉ synced_posts w) ∧ id ∈ post_id <$> posts)
    ∧ (∀ m, r = Returned m → m = (n + length (inserted_ids evs))%nat).

(** The same over a whole cycle. *)
Definition cycle_ledger (w w' : world) : Prop :=
  settings w' = settings w ∧ env w' = env w
  ∧ trace w' = trace w ++ new_events w w'
  ∧ synced_posts w' = list_to_set (inserted_ids (new_events w w')) ∪ synced_posts w
  ∧ NoDup (inserted_ids (new_events w w'))
  ∧ (∀ id, id ∈ inserted_ids (new_events w w') → id ∉ synced_posts w).

(** A Telegram request as a cycle with bot token [bt] and chat [ci] sends
    it: a text to [.../bot<bt>/sendMessage], or a photo with a non-empty
    address to [.../bot<bt>/sendPhoto], to chat [ci]. *)
Definition well_addressed (bt ci : option jsstring) (req : telegram_request) : Prop :=
  req = sendMessage_request bt ci (request_text req)
  ∨ ∃ imageUrl, truthy imageUrl = true
                ∧ req = sendPhoto_request bt ci imageUrl (request_text req).

Definition event_ok (bt ci : option jsstring) (e : event) : Prop :=
  match e with
  | EvTelegram req _ => well_addressed bt ci req
  | _ => True
  end.

(** The traffic of a stretch of a cycle: no Blogger call, at most [k]
    Telegram calls, all well addressed, at most [g] Gemini calls, and at
    most [i] ledger inserts, never more than there were Telegram calls. *)
Definition traffic (bt ci : option jsstring) (k g i : nat) (w w' : world) : Prop :=
  ∃ evs, trace w' = trace w ++ evs
    ∧ Forall (event_ok bt ci) evs
    ∧ blogger_calls evs = []
    ∧ (length (telegram_calls evs) ≤ k)%nat
    ∧ (length (gemini_calls evs) ≤ g)%nat
    ∧ (length (inserted_ids evs) ≤ i)%nat
    ∧ (length (inserted_ids evs) ≤ length (telegram_calls evs))%nat.

(** The traffic of a whole cycle: one Blogger call at most, then as above. *)
Definition cycle_traffic (k g i : nat) (w : world) (req : sync_body) (w' : world)
  : Prop :=
  trace w' = trace w ++ new_events w w'
  ∧ Forall (event_ok (botToken_of w req) (chatId_of w req)) (new_events w w')
  ∧ (length (blogger_calls (new_events w w')) ≤ 1)%nat
  ∧ (length (telegram_calls (new_events w w')) ≤ k)%nat
  ∧ (length (gemini_calls (new_events w w')) ≤ g)%nat
  ∧ (length (inserted_ids (new_events w w')) ≤ i)%nat
  ∧ (length (inserted_ids (new_events w w'))
     ≤ length (telegram_calls (new_events w w')))%nat.

(** What the handler's [catch] receives, in this embedding, when the
    listing cannot be had: the rejection of [fetch], or the SyntaxError of
    [response.json()], whose message stands for whatever the parser says. *)
Definition fetch_error (r : fetch_result blogger_data) : js_error :=
  match r with
  | FetchRejected msg => TypeError msg
  | FetchResponse _ _ => NOT_JSON
  end.

(** The world after one accepted delivery of the post with id [id], from
    the world [w] in which the call was made. *)
Definition after_delivery (w : world) (id : jsstring) (req : telegram_request)
    (j : option jsstring) : world :=
  {| synced_posts := {[ id ]} ∪ synced_posts w;
     settings := settings w;
     env := env w;
     trace := trace w ++ [EvTelegram req (FetchResponse true j); EvInsertSynced id] |}.

(** Blogger cannot be reached. *)
Definition offline_net : network :=
  static_net (FetchRejected (lit "fetch failed")) accept_all.

(** Blogger lists nothing. *)
Definition empty_net : network := static_net (feed_of []) accept_all.

Definition empty_data : blogger_data := {| data_error := None; data_items := Some [] |}.

Definition four_posts_data : blogger_data :=
  {| data_error := None; data_items := Some four_posts |}.

Definition bad_key_data : blogger_data :=
  {| data_error := Some bad_key; data_items := None |}.

(** The message part_001 composes for the text post p1. *)
Definition p1_message : jsstring :=
  fullMessage_of (lit "<b>Movie p1</b>" ++ [LF; LF] ++ lit "Plot of the movie...")
    (text_post "p1").

(** ** Text the tables keep as it is *)

(** SQLite stores TEXT as UTF-8.  A JavaScript string comes back from a
    table as it went in when it is well-formed UTF-16 (every high surrogate
    is followed by a low one and no low surrogate stands alone) and holds
    no NUL; the ids of Blogger posts, which are digit strings, and
    credentials are such text. *)
Definition is_high_surrogate (c : N) : bool := (55296 <=? c) && (c <=? 56319).
Definition is_low_surrogate (c : N) : bool := (56320 <=? c) && (c <=? 57343).

Fixpoint plain_text (s : jsstring) : bool :=
  match s with
  | [] => true
  | c :: s' =>
      if is_high_surrogate c then
        match s' with
        | d :: s'' => is_low_surrogate d && plain_text s''
        | [] => false
        end
      else negb (is_low_surrogate c) && (0 <? c) && (c <? 65536) && plain_text s'
  end.

(** The four names the code passes to [getSetting]: for them
    [process.env[key]] is a variable of the environment or [undefined],
    never a member that the object inherits. *)
Definition config_keys : list string :=
  ["BLOGGER_API_KEY"; "BLOGGER_BLOG_ID"; "TELEGRAM_BOT_TOKEN"; "TELEGRAM_CHANNEL_ID"]%string.

(** A world whose ledger already has p1, p2 and p3. *)
Definition warmer_world : world :=
  {| synced_posts := {[ lit "p1"; lit "p2"; lit "p3" ]};
     settings := ∅; env := ∅; trace := [] |}.

(** What part_001 composes for the photo post p2 before the call-to-action
    line is added. *)
Definition p2_details : jsstring :=
  lit "<b>Movie p2</b>" ++ [LF; LF] ++ lit "Poster inside...".

(** ** The functions on small inputs *)

Example match_img_first_image :
  match_img (lit "<p>x</p><img class='a' src=" ++ [QUOTE] ++ lit "http://i/1.png"
               ++ [QUOTE] ++ lit "><img src=" ++ [QUOTE] ++ lit "http://i/2.png"
               ++ [QUOTE] ++ lit ">")
  = Some (lit "http://i/1.png").
Proof. reflexivity. Qed.

(** The greedy [[^>]+] gives back as little as it can: of two [src]
    attributes in one tag the last one is captured. *)
Example match_img_last_src :
  match_img (lit "<img src=" ++ [QUOTE] ++ lit "a" ++ [QUOTE] ++ lit " data-src="
               ++ [QUOTE] ++ lit "b" ++ [QUOTE] ++ lit ">")
  = Some (lit "b").
Proof. reflexivity. Qed.

Example match_img_none : match_img (lit "<p>no image here</p>") = None.
Proof. reflexivity. Qed.

Example strip_tags_keeps_unclosed :
  strip_tags (lit "<b>Title</b> a < b") = lit "Title a < b".
Proof. reflexivity. Qed.

Example extractMovieDetails_text_post :
  Part001.extractMovieDetails (text_post "p1") fresh_world
  = (Returned (lit "<b>Movie p1</b>" ++ [LF; LF] ++ lit "Plot of the movie..."),
     fresh_world).
Proof. reflexivity. Qed.

Example resolve_image_photo_post :
  resolve_image (photo_post "p2") fresh_world
  = (Returned (Some (lit "https://img.example/poster.png")), fresh_world).
Proof. reflexivity. Qed.

(** The example of the specification: p1 is refused, p2 is delivered, the
    ledger holds p2 only. *)
Example one_refused_one_delivered :
  (Part001.post_api_sync no_text_net full_request fresh_world).1
  = Returned (SYNC_COMPLETE 1)
  ∧ synced_posts (Part001.post_api_sync no_text_net full_request fresh_world).2
    = {[ lit "p2" ]}.
Proof. split; vm_compute; reflexivity. Qed.

(** A second cycle on the same feed, from the world the first one left,
    delivers nothing. *)
Example second_cycle_delivers_nothing :
  let net := static_net (feed_of two_posts) accept_all in
  let w1 := (Part001.post_api_sync net full_request fresh_world).2 in
  let w2 := (Part001.post_api_sync net full_request w1).2 in
  (Part001.post_api_sync net full_request fresh_world).1 = Returned (SYNC_COMPLETE 2)
  ∧ (Part001.post_api_sync net full_request w1).1 = Returned (SYNC_COMPLETE 0)
  ∧ telegram_calls (new_events w1 w2) = []
  ∧ synced_posts w2 = synced_posts w1.
Proof. split_and!; vm_compute; reflexivity. Qed.

(** ** Reasoning rules *)

Section Rules.

Context {A B : Type}.
Implicit Types (w : world).

Lemma wp_ret (a : A) Q w : Q (Returned a) w → wp (mret a) Q w.
Proof. done. Qed.

Lemma wp_throw e (Q : outcome A → world → Prop) w :
  Q (Thrown e) w → wp (throw e) Q w.
Proof. done. Qed.

Lemma wp_bind (m : M A) (k : A → M B) Q w :
  wp m (λ r w', match r with
                | Returned a => wp (k a) Q w'
                | Thrown e => Q (Thrown e) w'
                end) w →
  wp (m ≫= k) Q w.
Proof. unfold wp, mbind, M_bind, bind. by destruct (m w) as [[a|e] w']. Qed.

Lemma wp_try_catch (m : M A) h Q w :
  wp m (λ r w', match r with
                | Returned a => Q (Returned a) w'
                | Thrown e => wp (h e) Q w'
                end) w →
  wp (try_catch m h) Q w.
Proof. unfold wp, try_catch. by destruct (m w) as [[a|e] w']. Qed.

Lemma wp_mono (m : M A) (Q Q' : outcome A → world → Prop) w :
  wp m Q w → (∀ r w', Q r w' → Q' r w') → wp m Q' w.
Proof. unfold wp. auto. Qed.

Lemma wp_run (m : M A) Q w r w' : m w = (r, w') → wp m Q w → Q r w'.
Proof. unfold wp. by intros ->. Qed.

Lemma wp_json (r : response A) Q w :
  (∀ j, json_body r = Some j → Q (Returned j) w) →
  (json_body r = None → ∀ e, Q (Thrown e) w) →
  wp (json r) Q w.
Proof. unfold wp, json. destruct (json_body r); simpl; auto. Qed.

End Rules.

Lemma wp_select_synced id Q w :
  Q (Returned (bool_decide (id ∈ synced_posts w))) w → wp (select_synced id) Q w.
Proof. done. Qed.

Lemma wp_insert_synced id Q w :
  (id ∈ synced_posts w → ∀ e, Q (Thrown e) w) →
  (id ∉ synced_posts w →
   Q (Returned tt)
     {| synced_posts := {[id]} ∪ synced_posts w; settings := settings w;
        env := env w; trace := trace w ++ [EvInsertSynced id] |}) →
  wp (insert_synced id) Q w.
Proof. unfold wp, insert_synced. case_bool_decide; simpl; auto. Qed.

Lemma wp_console_error l d Q w :
  Q (Returned tt) (emit (EvConsoleError l d) w) → wp (console_error l d) Q w.
Proof. done. Qed.

Lemma wp_getSetting key Q w :
  Q (Returned (js_or (settings w !! key) (env w !! key))) w →
  wp (getSetting key) Q w.
Proof. done. Qed.

Lemma wp_resolve override key Q w :
  Q (Returned (if truthy override then override
               else js_or (settings w !! key) (env w !! key))) w →
  wp (resolve override key) Q w.
Proof. unfold wp, resolve. by destruct (truthy override). Qed.

Lemma wp_fetch_telegram net req Q w :
  (∀ msg, telegram net (trace w) req = FetchRejected msg →
     Q (Thrown (TypeError msg)) (emit (EvTelegram req (FetchRejected msg)) w)) →
  (∀ o j, telegram net (trace w) req = FetchResponse o j →
     Q (Returned {| ok := o; json_body := j |})
       (emit (EvTelegram req (FetchResponse o j)) w)) →
  wp (fetch_telegram net req) Q w.
Proof. unfold wp, fetch_telegram. destruct (telegram _ _ _); simpl; auto. Qed.

Lemma wp_fetch_blogger net url Q w :
  (∀ msg, blogger net (trace w) url = FetchRejected msg →
     Q (Thrown (TypeError msg)) (emit (EvBlogger url (FetchRejected msg)) w)) →
  (∀ o j, blogger net (trace w) url = FetchResponse o j →
     Q (Returned {| ok := o; json_body := j |})
       (emit (EvBlogger url (FetchResponse o j)) w)) →
  wp (fetch_blogger net url) Q w.
Proof. unfold wp, fetch_blogger. destruct (blogger _ _ _); simpl; auto. Qed.

(** Image resolution touches nothing: it returns an image or throws. *)
Lemma wp_resolve_image p Q w :
  (truthy (first_image_url p) = false → post_content p = None →
   Q (Thrown UNDEFINED_MATCH) w) →
  (∀ i, Q (Returned i) w) →
  wp (resolve_image p) Q w.
Proof.
  unfold wp, resolve_image. destruct (truthy (first_image_url p)); simpl; auto.
  destruct (post_content p); simpl; auto. case_match; simpl; auto.
Qed.

Lemma wp_extractMovieDetails001 p Q w :
  (∀ d, Q (Returned d) w) → wp (Part001.extractMovieDetails p) Q w.
Proof. unfold wp, Part001.extractMovieDetails. simpl. auto. Qed.

Lemma wp_extractMovieDetails000 net c Q w :
  (∀ d r, Q (Returned d) (emit (EvGemini (tpl c) r) w)) →
  (∀ d r l x, Q (Returned d)
                (emit (EvConsoleError l x) (emit (EvGemini (tpl c) r) w))) →
  wp (Part000.extractMovieDetails net c) Q w.
Proof.
  unfold wp, Part000.extractMovieDetails. destruct (gemini _ _ _); simpl; auto.
Qed.

Ltac wp_step :=
  lazymatch goal with
  | |- wp (_ ≫= _) _ _ => apply wp_bind
  | |- wp (mret _) _ _ => apply wp_ret
  | |- wp (throw _) _ _ => apply wp_throw
  | |- wp (try_catch _ _) _ _ => apply wp_try_catch
  | |- wp (select_synced _) _ _ => apply wp_select_synced
  | |- wp (insert_synced _) _ _ => apply wp_insert_synced; [intros ? ? | intros ?]
  | |- wp (console_error _ _) _ _ => apply wp_console_error
  | |- wp (getSetting _) _ _ => apply wp_getSetting
  | |- wp (resolve _ _) _ _ => apply wp_resolve
  | |- wp (json _) _ _ =>
      let H := fresh "Hjson" in
      apply wp_json; [intros ? H | intros H ?]; cbn [json_body] in H;
      try subst
  | |- wp (fetch_telegram _ _) _ _ =>
      apply wp_fetch_telegram; [intros ? ? | intros ? ? ?]
  | |- wp (fetch_blogger _ _) _ _ =>
      apply wp_fetch_blogger; [intros ? ? | intros ? ? ?]
  | |- wp (resolve_image _) _ _ => apply wp_resolve_image; [intros ? ? | intros ?]
  | |- wp (Part001.extractMovieDetails _) _ _ =>
      apply wp_extractMovieDetails001; intros ?
  | |- wp (Part000.extractMovieDetails _ _) _ _ =>
      apply wp_extractMovieDetails000; [intros ? ? | intros ? ? ? ?]
  | |- wp (if ?b then _ else _) _ _ => destruct b eqn:?
  | |- wp (match ?o with Some _ => _ | None => _ end) _ _ => destruct o eqn:?
  end; cbv beta iota; cbn [ok json_body].

(** A decidable fact about concrete data, by evaluation. *)
Ltac by_compute := refine (bool_decide_unpack _ _); vm_compute; exact I.

(** The trace of a world after some [emit]s, as the old trace and a list. *)
Ltac flat_trace :=
  unfold emit in *; cbn [trace synced_posts settings env] in *;
  rewrite <- ?app_assoc; cbn [app].

Lemma new_events_app w w' evs : trace w' = trace w ++ evs → new_events w w' = evs.
Proof. unfold new_events. intros ->. by rewrite drop_app_length. Qed.

Lemma new_events_refl w : new_events w w = [].
Proof. apply new_events_app. by rewrite app_nil_r. Qed.

(** ** Configuration *)

Lemma resolved_eq w override key :
  resolved w override key =
    if truthy override then override else js_or (settings w !! key) (env w !! key).
Proof. unfold resolved, resolve. by destruct (truthy override). Qed.

(** C9.  An override or a stored setting that is the empty string counts as
    absent: resolution goes on to the next source, in the order per-call
    override, stored setting, process environment.  A non-empty override
    wins, and a non-empty stored setting wins over the environment. *)
Theorem C9_empty_string_falls_through :
  ∀ (key : string) (ledger : gset jsstring) (st ev : gmap string jsstring)
    (tr : list event) (c : N) (s : jsstring),
    let w := {| synced_posts := ledger; settings := st; env := ev; trace := tr |} in
    let w_empty :=
      {| synced_posts := ledger; settings := <[key := []]> st; env := ev; trace := tr |} in
    let w_set :=
      {| synced_posts := ledger; settings := <[key := c :: s]> st; env := ev; trace := tr |} in
    resolve (Some []) key w = resolve None key w
    ∧ resolve None key w = getSetting key w
    ∧ getSetting key w_empty = (Returned (ev !! key), w_empty)
    ∧ resolve (Some []) key w_empty = (Returned (ev !! key), w_empty)
    ∧ resolve (Some (c :: s)) key w = (Returned (Some (c :: s)), w)
    ∧ getSetting key w_set = (Returned (Some (c :: s)), w_set).
Proof.
  intros key ledger st ev tr c s w w_empty w_set. subst w w_empty w_set.
  unfold resolve, getSetting, js_or; cbn [truthy settings env].
  rewrite !lookup_insert_eq. cbn [truthy]. done.
Qed.

Lemma resolve_run override key w :
  resolve override key w = (Returned (resolved w override key), w).
Proof. unfold resolved, resolve. by destruct (truthy override). Qed.

Lemma post_api_sync_unfold000 net req w :
  Part000.post_api_sync net req w =
    if configured w req then
      try_catch
        (Part000.sync_configured net (apiKey_of w req) (blogId_of w req)
           (botToken_of w req) (chatId_of w req))
        Part000.on_sync_error w
    else (Returned MISSING_000, w).
Proof.
  unfold Part000.post_api_sync, try_catch, mbind, M_bind, bind.
  rewrite !resolve_run.
  unfold configured, apiKey_of, blogId_of, botToken_of, chatId_of.
  destruct (truthy (resolved w (BLOGGER_API_KEY req) _)); [|done].
  destruct (truthy (resolved w (BLOGGER_BLOG_ID req) _)); [|done].
  destruct (truthy (resolved w (TELEGRAM_BOT_TOKEN req) _)); [|done].
  destruct (truthy (resolved w (TELEGRAM_CHANNEL_ID req) _)); done.
Qed.

Lemma post_api_sync_unfold001 net req w :
  Part001.post_api_sync net req w =
    if configured w req then
      try_catch
        (Part001.sync_configured net (apiKey_of w req) (blogId_of w req)
           (botToken_of w req) (chatId_of w req))
        Part001.on_sync_error w
    else
      (Returned MISSING_001,
       emit (EvConsoleError (lit "Sync failed: Missing configuration")
               (LogFlags (truthy (apiKey_of w req)) (truthy (blogId_of w req))
                  (truthy (botToken_of w req)) (truthy (chatId_of w req)))) w).
Proof.
  unfold Part001.post_api_sync, try_catch, mbind, M_bind, bind.
  rewrite !resolve_run.
  unfold configured, apiKey_of, blogId_of, botToken_of, chatId_of.
  destruct (truthy (resolved w (BLOGGER_API_KEY req) _)); [|done].
  destruct (truthy (resolved w (BLOGGER_BLOG_ID req) _)); [|done].
  destruct (truthy (resolved w (TELEGRAM_BOT_TOKEN req) _)); [|done].
  destruct (truthy (resolved w (TELEGRAM_CHANNEL_ID req) _)); done.
Qed.

(** C6.  When one of the four required values resolves to nothing (or to the
    empty string), both handlers answer 400 and call no remote service:
    part_000 leaves the world as it was, part_001 only writes a console
    line. *)
Theorem C6_missing_configuration :
  ∀ net req w,
    configured w req = false →
    Part000.post_api_sync net req w = (Returned MISSING_000, w)
    ∧ (∃ l d, Part001.post_api_sync net req w
              = (Returned MISSING_001, emit (EvConsoleError l d) w))
    ∧ status MISSING_000 = 400%nat ∧ status MISSING_001 = 400%nat
    ∧ network_calls (new_events w (Part000.post_api_sync net req w).2) = []
    ∧ network_calls (new_events w (Part001.post_api_sync net req w).2) = [].
Proof.
  intros net req w Hcfg.
  rewrite post_api_sync_unfold000, post_api_sync_unfold001, Hcfg.
  split_and!; eauto.
  - cbn [snd]. by rewrite new_events_refl.
  - cbn [snd]. erewrite new_events_app; [|reflexivity]. done.
Qed.

(** ** Items that are skipped or that fail before delivery *)

Ltac unfold_run :=
  unfold mbind, M_bind, bind, try_catch, select_synced, resolve_image,
    console_error, throw, mret, M_ret, ret.

Lemma sync_post_known000 net bt ci n p w :
  post_id p ∈ synced_posts w → Part000.sync_post net bt ci n p w = (Returned n, w).
Proof.
  intros Hin. unfold Part000.sync_post. unfold_run.
  by rewrite bool_decide_eq_true_2.
Qed.

Lemma sync_post_known001 net bt ci n p w :
  post_id p ∈ synced_posts w → Part001.sync_post net bt ci n p w = (Returned n, w).
Proof.
  intros Hin. unfold Part001.sync_post. unfold_run.
  by rewrite bool_decide_eq_true_2.
Qed.

Lemma sync_posts_known000 net bt ci posts n w :
  Forall (λ p, post_id p ∈ synced_posts w) posts →
  Part000.sync_posts net bt ci posts n w = (Returned n, w).
Proof.
  induction 1 as [|p posts Hp _ IH]; [done|].
  cbn [Part000.sync_posts]. unfold mbind, M_bind, bind.
  by rewrite sync_post_known000.
Qed.

Lemma sync_posts_known001 net bt ci posts n w :
  Forall (λ p, post_id p ∈ synced_posts w) posts →
  Part001.sync_posts net bt ci posts n w = (Returned n, w).
Proof.
  induction 1 as [|p posts Hp _ IH]; [done|].
  cbn [Part001.sync_posts]. unfold mbind, M_bind, bind, Part001.try_sync_post, try_catch.
  by rewrite sync_post_known001.
Qed.

(** C10.  A post with no image list and no body: image resolution reads
    [match] of the absent body and throws, in every world.  In both
    handlers the turn of such a post leaves the world as it was, so the post
    is neither delivered nor recorded; when the post is new to the ledger
    the turn is that TypeError, before any call to Gemini or Telegram, and
    in part_001 the loop catches it, logs it and keeps the count. *)
Theorem C10_absent_body_raises :
  ∀ net bt ci n p w,
    post_images p = None → post_content p = None →
    resolve_image p w = (Thrown UNDEFINED_MATCH, w)
    ∧ (Part000.sync_post net bt ci n p w).2 = w
    ∧ (Part001.sync_post net bt ci n p w).2 = w
    ∧ (post_id p ∉ synced_posts w →
       Part000.sync_post net bt ci n p w = (Thrown UNDEFINED_MATCH, w)
       ∧ Part001.sync_post net bt ci n p w = (Thrown UNDEFINED_MATCH, w)
       ∧ Part001.try_sync_post net bt ci n p w
         = (Returned n,
            emit (EvConsoleError (lit "Error processing post " ++ post_id p ++ lit ":")
                    (LogError UNDEFINED_MATCH)) w)).
Proof.
  intros net bt ci n p w Himg Hbody.
  assert (Hres : resolve_image p w = (Thrown UNDEFINED_MATCH, w)).
  { unfold resolve_image, first_image_url. by rewrite Himg, Hbody. }
  assert (H0 : post_id p ∉ synced_posts w →
               Part000.sync_post net bt ci n p w = (Thrown UNDEFINED_MATCH, w)).
  { intros Hnew. unfold Part000.sync_post, mbind, M_bind, bind, select_synced.
    rewrite bool_decide_eq_false_2 by done. cbn [negb]. by rewrite Hres. }
  assert (H1 : post_id p ∉ synced_posts w →
               Part001.sync_post net bt ci n p w = (Thrown UNDEFINED_MATCH, w)).
  { intros Hnew. unfold Part001.sync_post, mbind, M_bind, bind, select_synced.
    rewrite bool_decide_eq_false_2 by done. cbn [negb]. by rewrite Hres. }
  split_and!; [done| | |].
  - destruct (decide (post_id p ∈ synced_posts w)) as [Hin|Hnew].
    + by rewrite sync_post_known000.
    + by rewrite H0.
  - destruct (decide (post_id p ∈ synced_posts w)) as [Hin|Hnew].
    + by rewrite sync_post_known001.
    + by rewrite H1.
  - intros Hnew. split_and!; [by apply H0|by apply H1|].
    unfold Part001.try_sync_post, try_catch. by rewrite H1.
Qed.

(** ** What one turn and one loop do to the ledger *)

Lemma inserts_app evs1 evs2 : inserts (evs1 ++ evs2) = inserts evs1 ++ inserts evs2.
Proof. apply filter_app. Qed.



Lemma request_text_first bt ci i m : request_text (first_request bt ci i m) = m.
Proof. unfold first_request. by destruct (truthy i). Qed.

Lemma request_text_sendMessage bt ci m :
  request_text (sendMessage_request bt ci m) = m.
Proof. done. Qed.

(** The two ways a turn ends, as [post_effect] has them. *)
Ltac ledger_untouched :=
  eexists; split; [try reflexivity; symmetry; apply app_nil_r|];
  left; split_and!; [reflexivity | reflexivity | eauto].

Ltac ledger_written pre :=
  eexists; split; [reflexivity|];
  right; split_and!; [done | reflexivity | reflexivity |];
  eexists pre, _, _, _; split_and!;
  [reflexivity | apply request_text_first || apply request_text_sendMessage
  | reflexivity].

Lemma sync_post_effect000 net bt ci n p w :
  wp (Part000.sync_post net bt ci n p) (post_effect p n w) w.
Proof.
  unfold Part000.sync_post, post_effect.
  repeat wp_step; flat_trace; (split; [done|]); (split; [done|]).
  all: try solve [ledger_untouched].
  - ledger_written [EvGemini (tpl (post_content p)) r].
  - ledger_written [EvGemini (tpl (post_content p)) r; EvConsoleError l x].
Qed.

Lemma sync_post_effect001 net bt ci n p w :
  wp (Part001.sync_post net bt ci n p) (post_effect p n w) w.
Proof.
  unfold Part001.sync_post, post_effect.
  repeat wp_step; flat_trace; (split; [done|]); (split; [done|]).
  all: try solve [ledger_untouched].
  - ledger_written (@nil event).
  - ledger_written
      [EvTelegram (first_request bt ci i (fullMessage_of d p))
         (FetchResponse false (Some j0));
       EvConsoleError (lit "Telegram Send Failed:") (LogTelegram j0)].
Qed.

Lemma try_sync_post_effect001 net bt ci n p w :
  wp (Part001.try_sync_post net bt ci n p)
    (λ r w', post_effect p n w r w' ∧ ∃ m, r = Returned m) w.
Proof.
  unfold Part001.try_sync_post. apply wp_try_catch.
  eapply wp_mono; [apply sync_post_effect001|].
  intros r w' (Hs & He & evs & Htr & Hcases). destruct r as [m|e].
  - split; [|by eauto]. split_and!; eauto.
  - wp_step. wp_step. flat_trace. split; [|by eauto].
    split_and!; [done..|].
    destruct Hcases as [(Hl & Hi & _)|(_ & _ & [=] & _)].
    eexists. split; [rewrite Htr, <- app_assoc; reflexivity|].
    left. split_and!; [done| |by left].
    by rewrite inserts_app, Hi.
Qed.

Lemma delivered_then_recorded_app_r p evs1 evs2 :
  delivered_then_recorded p evs1 → delivered_then_recorded p (evs1 ++ evs2).
Proof.
  intros (pre & req & j & d & rest & -> & Htext).
  exists pre, req, j, d, (rest ++ evs2). split; [|done].
  by rewrite <- app_assoc.
Qed.

Lemma delivered_then_recorded_app_l p evs1 evs2 :
  delivered_then_recorded p evs2 → delivered_then_recorded p (evs1 ++ evs2).
Proof.
  intros (pre & req & j & d & rest & -> & Htext).
  exists (evs1 ++ pre), req, j, d, rest. split; [|done].
  by rewrite <- app_assoc.
Qed.

Lemma inserts_delivery pre req r id :
  inserts pre = [] →
  length (inserts (pre ++ [EvTelegram req r; EvInsertSynced id])) = 1%nat.
Proof. intros Hpre. by rewrite inserts_app, Hpre. Qed.

Lemma posts_effect_nil n w : posts_effect [] n w (Returned n) w.
Proof.
  split_and!; [done..|]. exists []. rewrite app_nil_r.
  split_and!; [done|done|done|]. intros m [= <-]. cbn. lia.
Qed.

Lemma posts_effect_throw p posts n w e w1 :
  post_effect p n w (Thrown e) w1 → posts_effect (p :: posts) n w (Thrown e) w1.
Proof.
  intros (Hs & He & evs & Htr & [(Hl & _)|(_ & _ & [=] & _)]).
  split_and!; [done..|]. exists evs. rewrite Hl. split_and!; try done.
Qed.

Lemma posts_effect_cons p posts n w n1 w1 r w' :
  post_effect p n w (Returned n1) w1 →
  posts_effect posts n1 w1 r w' →
  posts_effect (p :: posts) n w r w'.
Proof.
  intros (Hs1 & He1 & evs1 & Htr1 & Hcases) (Hs & He & evs & Htr & Hsub & Hnew & Hcount).
  split_and!; [congruence..|].
  exists (evs1 ++ evs). split; [by rewrite Htr, Htr1, app_assoc|].
  destruct Hcases as [(Hl & Hi & Hr)|(Hfresh & Hl & Hr & pre & req & j & d & -> & Htext & Hpre)].
  - rewrite Hl in *. split_and!; [done| |].
    + intros id Hin Hnot. destruct (Hnew id Hin Hnot) as (q & Hq & Hid & Hdel).
      exists q. split_and!; [by right|done|by apply delivered_then_recorded_app_l].
    + intros m Hm. rewrite inserts_app, Hi. cbn [app].
      destruct Hr as [[= <-]|[e [=]]]. by apply Hcount.
  - injection Hr as ->. split_and!.
    + intros x Hx. apply Hsub. rewrite Hl. apply elem_of_union. by right.
    + intros id Hin Hnot. destruct (decide (id = post_id p)) as [->|Hne].
      * exists p. split_and!; [by left|done|].
        apply delivered_then_recorded_app_r.
        by exists pre, req, j, d, [].
      * destruct (Hnew id Hin) as (q & Hq & Hid & Hdel);
          [by rewrite Hl, not_elem_of_union, not_elem_of_singleton|].
        exists q. split_and!; [by right|done|by apply delivered_then_recorded_app_l].
    + intros m Hm. rewrite (inserts_app _ evs), length_app, inserts_delivery by done.
      rewrite (Hcount m Hm). lia.
Qed.

Lemma sync_posts_effect000 net bt ci posts :
  ∀ n w, wp (Part000.sync_posts net bt ci posts n) (posts_effect posts n w) w.
Proof.
  induction posts as [|p posts IH]; intros n w.
  - apply wp_ret, posts_effect_nil.
  - cbn [Part000.sync_posts]. apply wp_bind.
    eapply wp_mono; [apply sync_post_effect000|].
    intros [n1|e] w1 Hp.
    + eapply wp_mono; [apply IH|]. intros r w'. by apply posts_effect_cons.
    + by apply posts_effect_throw.
Qed.

Lemma sync_posts_effect001 net bt ci posts :
  ∀ n w, wp (Part001.sync_posts net bt ci posts n)
           (λ r w', posts_effect posts n w r w' ∧ ∃ m, r = Returned m) w.
Proof.
  induction posts as [|p posts IH]; intros n w.
  - apply wp_ret. split; [apply posts_effect_nil|by eauto].
  - cbn [Part001.sync_posts]. apply wp_bind.
    eapply wp_mono; [apply try_sync_post_effect001|].
    intros r w1 [Hp [n1 ->]].
    eapply wp_mono; [apply IH|]. intros r w' [Hps Hr].
    split; [by eapply posts_effect_cons|done].
Qed.

(** ** The whole handler, once the listing is known *)

Lemma listing_Some net w req data :
  listing net w req = Some data →
  ∃ o, blogger net (trace w) (bloggerUrl (blogId_of w req) (apiKey_of w req))
       = FetchResponse o (Some data).
Proof.
  unfold listing. destruct (blogger _ _ _) as [|o [d|]]; [done| |done].
  intros [= ->]. by exists o.
Qed.

Lemma post_api_sync_run000 net req w data :
  configured w req = true →
  listing net w req = Some data →
  Part000.post_api_sync net req w =
    match data_items data with
    | None => (Returned NO_POSTS, after_fetch net w req)
    | Some items =>
        match Part000.sync_posts net (botToken_of w req) (chatId_of w req) items 0
                (after_fetch net w req) with
        | (Returned n, w') => (Returned (SYNC_COMPLETE n), w')
        | (Thrown e, w') => Part000.on_sync_error e w'
        end
    end.
Proof.
  intros Hcfg Hdata. destruct (listing_Some _ _ _ _ Hdata) as [o Ho].
  rewrite post_api_sync_unfold000, Hcfg.
  unfold Part000.sync_configured, try_catch, mbind, M_bind, bind, fetch_blogger,
    after_fetch, json.
  rewrite Ho. cbn [json_body]. unfold mret, M_ret, ret. cbv beta iota.
  destruct (data_items data) as [items|]; [|reflexivity].
  destruct (Part000.sync_posts _ _ _ _ _ _) as [[n|e] w']; reflexivity.
Qed.

Lemma post_api_sync_run001 net req w data :
  configured w req = true →
  listing net w req = Some data →
  Part001.post_api_sync net req w =
    match data_error data with
    | Some e =>
        (Returned (UPSTREAM_ERROR e),
         emit (EvConsoleError (lit "Blogger API Error:") (LogBlogger e))
           (after_fetch net w req))
    | None =>
        match data_items data with
        | None => (Returned NO_POSTS, after_fetch net w req)
        | Some items =>
            match Part001.sync_posts net (botToken_of w req) (chatId_of w req)
                    (Part001.postsToProcess items) 0 (after_fetch net w req) with
            | (Returned n, w') => (Returned (SYNC_COMPLETE n), w')
            | (Thrown e, w') => Part001.on_sync_error e w'
            end
        end
    end.
Proof.
  intros Hcfg Hdata. destruct (listing_Some _ _ _ _ Hdata) as [o Ho].
  rewrite post_api_sync_unfold001, Hcfg.
  unfold Part001.sync_configured, try_catch, mbind, M_bind, bind, fetch_blogger,
    after_fetch, json.
  rewrite Ho. cbn [json_body]. unfold mret, M_ret, ret. cbv beta iota.
  destruct (data_error data) as [e|]; [reflexivity|].
  destruct (data_items data) as [items|]; [|reflexivity].
  destruct (Part001.sync_posts _ _ _ _ _ _) as [[n|e] w']; reflexivity.
Qed.

(** Without a JSON listing the cycle ends in the handler's [catch]. *)
Lemma post_api_sync_no_listing000 net req w :
  configured w req = true →
  listing net w req = None →
  ∃ e, Part000.post_api_sync net req w
       = Part000.on_sync_error e (after_fetch net w req).
Proof.
  intros Hcfg Hdata. rewrite post_api_sync_unfold000, Hcfg.
  unfold listing in Hdata.
  unfold Part000.sync_configured, try_catch, mbind, M_bind, bind, fetch_blogger,
    after_fetch, json.
  destruct (blogger _ _ _) as [msg|o [d|]]; [|done|]; cbn [json_body];
    unfold mret, M_ret, ret, throw; cbv beta iota; eexists; reflexivity.
Qed.

Lemma post_api_sync_no_listing001 net req w :
  configured w req = true →
  listing net w req = None →
  ∃ e, Part001.post_api_sync net req w
       = Part001.on_sync_error e (after_fetch net w req).
Proof.
  intros Hcfg Hdata. rewrite post_api_sync_unfold001, Hcfg.
  unfold listing in Hdata.
  unfold Part001.sync_configured, try_catch, mbind, M_bind, bind, fetch_blogger,
    after_fetch, json.
  destruct (blogger _ _ _) as [msg|o [d|]]; [|done|]; cbn [json_body];
    unfold mret, M_ret, ret, throw; cbv beta iota; eexists; reflexivity.
Qed.

(** ** The ledger over a whole cycle *)

Lemma cycle_effect_refl w : cycle_effect w w.
Proof. exists []. rewrite app_nil_r. split_and!; [done|done|]. by intros id ? ?. Qed.

Lemma fetched_app_r p evs1 evs2 : fetched p evs1 → fetched p (evs1 ++ evs2).
Proof.
  intros (url & o & data & items & Hin & Hitems & Hp).
  exists url, o, data, items. split_and!; [|done..].
  apply elem_of_app. by left.
Qed.

Lemma cycle_effect_emit w w' e : cycle_effect w w' → cycle_effect w (emit e w').
Proof.
  intros (evs & Htr & Hsub & Hnew). exists (evs ++ [e]). unfold emit; cbn.
  split_and!; [by rewrite Htr, app_assoc|done|].
  intros id Hin Hnot. destruct (Hnew id Hin Hnot) as (p & Hid & Hf & Hd).
  exists p. split_and!; [done|by apply fetched_app_r|].
  by apply delivered_then_recorded_app_r.
Qed.

Lemma cycle_effect_posts net w req data items posts n r w' :
  listing net w req = Some data →
  data_items data = Some items →
  posts ⊆ items →
  posts_effect posts n (after_fetch net w req) r w' →
  cycle_effect w w'.
Proof.
  intros Hdata Hitems Hsubl (_ & _ & evs & Htr & Hsub & Hnew & _).
  destruct (listing_Some _ _ _ _ Hdata) as [o Ho].
  unfold after_fetch, emit in *; cbn [trace synced_posts] in *. rewrite Ho in *.
  eexists (_ :: evs). split_and!; [by rewrite Htr, <- app_assoc|done|].
  intros id Hin Hnot. destruct (Hnew id Hin Hnot) as (p & Hp & Hid & Hd).
  exists p. split_and!; [done| |by apply (delivered_then_recorded_app_l _ [_])].
  eexists _, o, data, items. split_and!; [by left|done|by apply Hsubl].
Qed.

Lemma on_sync_error_run000 e w :
  ∃ resp l d, Part000.on_sync_error e w = (Returned resp, emit (EvConsoleError l d) w)
              ∧ status resp = 500%nat ∧ field "errors" resp = None.
Proof. by eexists _, _, _. Qed.

Lemma on_sync_error_run001 e w :
  ∃ resp l d, Part001.on_sync_error e w = (Returned resp, emit (EvConsoleError l d) w)
              ∧ status resp = 500%nat ∧ field "errors" resp = None.
Proof. by eexists _, _, _. Qed.

Lemma after_fetch_effect net w req : cycle_effect w (after_fetch net w req).
Proof. apply cycle_effect_emit, cycle_effect_refl. Qed.

Lemma cycle_effect000 net req w :
  cycle_effect w (Part000.post_api_sync net req w).2.
Proof.
  destruct (configured w req) eqn:Hcfg.
  2: { rewrite post_api_sync_unfold000, Hcfg. apply cycle_effect_refl. }
  destruct (listing net w req) as [data|] eqn:Hdata.
  2: { destruct (post_api_sync_no_listing000 _ _ _ Hcfg Hdata) as [e ->].
       destruct (on_sync_error_run000 e (after_fetch net w req)) as (? & ? & ? & -> & _ & _).
       apply cycle_effect_emit, after_fetch_effect. }
  rewrite (post_api_sync_run000 _ _ _ _ Hcfg Hdata).
  destruct (data_items data) as [items|] eqn:Hitems; [|apply after_fetch_effect].
  pose proof (sync_posts_effect000 net (botToken_of w req) (chatId_of w req) items 0
                (after_fetch net w req)) as Hposts.
  unfold wp in Hposts.
  destruct (Part000.sync_posts _ _ _ _ _ _) as [[n|e] w']; cbn [fst snd] in *.
  - by eapply cycle_effect_posts.
  - destruct (on_sync_error_run000 e w') as (? & ? & ? & -> & _ & _).
    apply cycle_effect_emit. by eapply cycle_effect_posts.
Qed.

Lemma cycle_effect001 net req w :
  cycle_effect w (Part001.post_api_sync net req w).2.
Proof.
  destruct (configured w req) eqn:Hcfg.
  2: { rewrite post_api_sync_unfold001, Hcfg. apply cycle_effect_emit, cycle_effect_refl. }
  destruct (listing net w req) as [data|] eqn:Hdata.
  2: { destruct (post_api_sync_no_listing001 _ _ _ Hcfg Hdata) as [e ->].
       destruct (on_sync_error_run001 e (after_fetch net w req)) as (? & ? & ? & -> & _ & _).
       apply cycle_effect_emit, after_fetch_effect. }
  rewrite (post_api_sync_run001 _ _ _ _ Hcfg Hdata).
  destruct (data_error data) as [err|].
  { apply cycle_effect_emit, after_fetch_effect. }
  destruct (data_items data) as [items|] eqn:Hitems; [|apply after_fetch_effect].
  pose proof (sync_posts_effect001 net (botToken_of w req) (chatId_of w req)
                (Part001.postsToProcess items) 0 (after_fetch net w req)) as [Hposts _].
  assert (Part001.postsToProcess items ⊆ items) as Hsub by apply subseteq_take.
  destruct (Part001.sync_posts _ _ _ _ _ _) as [[n|e] w']; cbn [fst snd] in *.
  - by eapply cycle_effect_posts.
  - destruct (on_sync_error_run001 e w') as (? & ? & ? & -> & _ & _).
    apply cycle_effect_emit. by eapply cycle_effect_posts.
Qed.

Lemma delivered_accepted p evs :
  delivered_then_recorded p evs → delivery_accepted (post_id p) evs.
Proof.
  intros (pre & req & j & d & rest & -> & Htext).
  exists p, req, j, d. split_and!; [done..|].
  apply elem_of_app. right. by left.
Qed.

(** C1.  In both handlers, an id that a cycle adds to the ledger is the id
    of a fetched post, and its insert comes right after a Telegram call
    that carried the message composed for that post and was answered with
    success.  So when Telegram accepted no message for a post with that id
    during the cycle, the id is still out of the ledger after it: the item
    stays a candidate. *)
Theorem C1_recorded_only_after_successful_delivery :
  ∀ net req w id,
    id ∉ synced_posts w →
    let w0 := (Part000.post_api_sync net req w).2 in
    let w1 := (Part001.post_api_sync net req w).2 in
    (id ∈ synced_posts w0 →
     ∃ p, post_id p = id ∧ fetched p (new_events w w0)
          ∧ delivered_then_recorded p (new_events w w0))
    ∧ (id ∈ synced_posts w1 →
       ∃ p, post_id p = id ∧ fetched p (new_events w w1)
            ∧ delivered_then_recorded p (new_events w w1))
    ∧ (¬ delivery_accepted id (new_events w w0) → id ∉ synced_posts w0)
    ∧ (¬ delivery_accepted id (new_events w w1) → id ∉ synced_posts w1).
Proof.
  intros net req w id Hnot w0 w1.
  destruct (cycle_effect000 net req w) as (evs0 & Htr0 & _ & Hnew0).
  destruct (cycle_effect001 net req w) as (evs1 & Htr1 & _ & Hnew1).
  fold w0 in Htr0, Hnew0. fold w1 in Htr1, Hnew1.
  rewrite (new_events_app _ _ _ Htr0), (new_events_app _ _ _ Htr1).
  split_and!.
  - intros Hin. by apply Hnew0.
  - intros Hin. by apply Hnew1.
  - intros Hno Hin. destruct (Hnew0 id Hin Hnot) as (p & <- & _ & Hd).
    by apply Hno, delivered_accepted.
  - intros Hno Hin. destruct (Hnew1 id Hin Hnot) as (p & <- & _ & Hd).
    by apply Hno, delivered_accepted.
Qed.

Lemma C1_witness :
  (lit "p1" ∉ synced_posts fresh_world)
  ∧ ∃ p, post_id p = lit "p1"
         ∧ fetched p (new_events fresh_world
              (Part001.post_api_sync (static_net (feed_of [text_post "p1"]) accept_all)
                 full_request fresh_world).2)
         ∧ delivered_then_recorded p (new_events fresh_world
              (Part001.post_api_sync (static_net (feed_of [text_post "p1"]) accept_all)
                 full_request fresh_world).2).
Proof.
  assert (H : lit "p1" ∉ synced_posts fresh_world) by apply not_elem_of_empty.
  split; [exact H|].
  apply (C1_recorded_only_after_successful_delivery
           (static_net (feed_of [text_post "p1"]) accept_all) full_request
           fresh_world (lit "p1") H).
  by_compute.
Defined.

Lemma C6_witness :
  configured fresh_world no_token_request = false
  ∧ Part000.post_api_sync (static_net (feed_of four_posts) accept_all)
      no_token_request fresh_world = (Returned MISSING_000, fresh_world)
  ∧ network_calls
      (new_events fresh_world
         (Part001.post_api_sync (static_net (feed_of four_posts) accept_all)
            no_token_request fresh_world).2) = [].
Proof.
  assert (H : configured fresh_world no_token_request = false) by reflexivity.
  split; [exact H|].
  pose proof (C6_missing_configuration (static_net (feed_of four_posts) accept_all)
                no_token_request fresh_world H) as (H0 & _ & _ & _ & _ & H1).
  split; [exact H0 | exact H1].
Defined.

Lemma C10_witness :
  resolve_image (bare_post "p1") fresh_world = (Thrown UNDEFINED_MATCH, fresh_world)
  ∧ Part000.sync_post (static_net (feed_of [bare_post "p1"]) accept_all)
      (Some (lit "token")) (Some (lit "@channel")) 0 (bare_post "p1") fresh_world
    = (Thrown UNDEFINED_MATCH, fresh_world)
  ∧ Part001.sync_post (static_net (feed_of [bare_post "p1"]) accept_all)
      (Some (lit "token")) (Some (lit "@channel")) 0 (bare_post "p1") fresh_world
    = (Thrown UNDEFINED_MATCH, fresh_world).
Proof.
  pose proof (C10_absent_body_raises
                (static_net (feed_of [bare_post "p1"]) accept_all)
                (Some (lit "token")) (Some (lit "@channel")) 0%nat
                (bare_post "p1") fresh_world eq_refl eq_refl)
    as (Hres & _ & _ & Hnew).
  destruct (Hnew (not_elem_of_empty (lit "p1"))) as (H0 & H1 & _).
  split_and!; [exact Hres | exact H0 | exact H1].
Defined.

(** ** Items already in the ledger *)

Lemma sync_posts_app000 net bt ci posts1 posts2 :
  ∀ n w,
    Part000.sync_posts net bt ci (posts1 ++ posts2) n w =
      match Part000.sync_posts net bt ci posts1 n w with
      | (Returned n1, w1) => Part000.sync_posts net bt ci posts2 n1 w1
      | (Thrown e, w1) => (Thrown e, w1)
      end.
Proof.
  induction posts1 as [|p posts1 IH]; intros n w; [done|].
  cbn [app Part000.sync_posts]. unfold mbind, M_bind, bind.
  destruct (Part000.sync_post net bt ci n p w) as [[n1|e] w1]; [apply IH|done].
Qed.

Lemma sync_posts_app001 net bt ci posts1 posts2 :
  ∀ n w,
    Part001.sync_posts net bt ci (posts1 ++ posts2) n w =
      match Part001.sync_posts net bt ci posts1 n w with
      | (Returned n1, w1) => Part001.sync_posts net bt ci posts2 n1 w1
      | (Thrown e, w1) => (Thrown e, w1)
      end.
Proof.
  induction posts1 as [|p posts1 IH]; intros n w; [done|].
  cbn [app Part001.sync_posts]. unfold mbind, M_bind, bind.
  destruct (Part001.try_sync_post net bt ci n p w) as [[n1|e] w1]; [apply IH|done].
Qed.

(** An item whose id is in the ledger when the loop starts is still in it
    when its turn comes, so the loop runs as if the item were not in the
    feed. *)
Lemma sync_posts_skip000 net bt ci before p after n w :
  post_id p ∈ synced_posts w →
  Part000.sync_posts net bt ci (before ++ p :: after) n w
  = Part000.sync_posts net bt ci (before ++ after) n w.
Proof.
  intros Hin. rewrite !sync_posts_app000.
  pose proof (sync_posts_effect000 net bt ci before n w) as Heff. unfold wp in Heff.
  destruct (Part000.sync_posts net bt ci before n w) as [[n1|e] w1]; [|done].
  destruct Heff as (_ & _ & _ & _ & Hsub & _). cbn [fst snd] in Hsub.
  cbn [Part000.sync_posts]. unfold mbind, M_bind, bind.
  rewrite sync_post_known000; [done|]. by apply Hsub.
Qed.

Lemma sync_posts_skip001 net bt ci before p after n w :
  post_id p ∈ synced_posts w →
  Part001.sync_posts net bt ci (before ++ p :: after) n w
  = Part001.sync_posts net bt ci (before ++ after) n w.
Proof.
  intros Hin. rewrite !sync_posts_app001.
  pose proof (sync_posts_effect001 net bt ci before n w) as [Heff _]. unfold wp in Heff.
  destruct (Part001.sync_posts net bt ci before n w) as [[n1|e] w1]; [|done].
  destruct Heff as (_ & _ & _ & _ & Hsub & _). cbn [fst snd] in Hsub.
  cbn [Part001.sync_posts]. unfold mbind, M_bind, bind, Part001.try_sync_post, try_catch.
  rewrite sync_post_known001; [done|]. by apply Hsub.
Qed.

Lemma telegram_calls_after_fetch net w req :
  telegram_calls (new_events w (after_fetch net w req)) = [].
Proof. unfold after_fetch. by erewrite new_events_app; [|reflexivity]. Qed.

(** C4.  An item whose id is in the ledger costs nothing, whatever else the
    feed holds.  Its turn leaves the world and the count as they were (no
    Gemini call, no Telegram call, no insert), and a loop over a list that
    contains it runs exactly as the loop over the list without it.  So a
    cycle whose listing holds a known item among others is the cycle over
    the others (in part_001: over the other items of the first three).
    And a cycle that finds all the items it looks at in the ledger (all of
    them in part_000, the first three in part_001) answers [synced: 0]
    having done nothing but fetch the listing: no Telegram call, no insert,
    the ledger as it was. *)
Theorem C4_known_items_are_skipped :
  (∀ net bt ci n p w,
      post_id p ∈ synced_posts w →
      Part000.sync_post net bt ci n p w = (Returned n, w)
      ∧ Part001.sync_post net bt ci n p w = (Returned n, w)
      ∧ Part001.try_sync_post net bt ci n p w = (Returned n, w)
      ∧ ∀ before after,
          Part000.sync_posts net bt ci (before ++ p :: after) n w
          = Part000.sync_posts net bt ci (before ++ after) n w
          ∧ Part001.sync_posts net bt ci (before ++ p :: after) n w
            = Part001.sync_posts net bt ci (before ++ after) n w)
  ∧ (∀ net req w data items before p after,
      configured w req = true →
      listing net w req = Some data →
      data_items data = Some items →
      post_id p ∈ synced_posts w →
      (items = before ++ p :: after →
       Part000.post_api_sync net req w
       = match Part000.sync_posts net (botToken_of w req) (chatId_of w req)
                 (before ++ after) 0 (after_fetch net w req) with
         | (Returned n, w') => (Returned (SYNC_COMPLETE n), w')
         | (Thrown e, w') => Part000.on_sync_error e w'
         end)
      ∧ (data_error data = None →
         Part001.postsToProcess items = before ++ p :: after →
         Part001.post_api_sync net req w
         = match Part001.sync_posts net (botToken_of w req) (chatId_of w req)
                   (before ++ after) 0 (after_fetch net w req) with
           | (Returned n, w') => (Returned (SYNC_COMPLETE n), w')
           | (Thrown e, w') => Part001.on_sync_error e w'
           end))
  ∧ (∀ net req w data items,
      configured w req = true →
      listing net w req = Some data →
      data_items data = Some items →
      (Forall (λ q, post_id q ∈ synced_posts w) items →
       Part000.post_api_sync net req w
       = (Returned (SYNC_COMPLETE 0), after_fetch net w req))
      ∧ (data_error data = None →
         Forall (λ q, post_id q ∈ synced_posts w) (Part001.postsToProcess items) →
         Part001.post_api_sync net req w
         = (Returned (SYNC_COMPLETE 0), after_fetch net w req))
      ∧ synced_posts (after_fetch net w req) = synced_posts w
      ∧ telegram_calls (new_events w (after_fetch net w req)) = []
      ∧ inserts (new_events w (after_fetch net w req)) = []).
Proof.
  split_and!.
  - intros net bt ci n p w Hin. split_and!.
    + by apply sync_post_known000.
    + by apply sync_post_known001.
    + unfold Part001.try_sync_post, try_catch. by rewrite sync_post_known001.
    + intros before after. split.
      * by apply sync_posts_skip000.
      * by apply sync_posts_skip001.
  - intros net req w data items before p after Hcfg Hdata Hitems Hin. split.
    + intros ->. rewrite (post_api_sync_run000 _ _ _ _ Hcfg Hdata), Hitems.
      by rewrite sync_posts_skip000.
    + intros Herr Hfirst.
      rewrite (post_api_sync_run001 _ _ _ _ Hcfg Hdata), Herr, Hitems, Hfirst.
      by rewrite sync_posts_skip001.
  - intros net req w data items Hcfg Hdata Hitems. split_and!.
    + intros Hall. rewrite (post_api_sync_run000 _ _ _ _ Hcfg Hdata), Hitems.
      by rewrite sync_posts_known000.
    + intros Herr Hall. rewrite (post_api_sync_run001 _ _ _ _ Hcfg Hdata), Herr, Hitems.
      by rewrite sync_posts_known001.
    + done.
    + apply telegram_calls_after_fetch.
    + unfold after_fetch. by erewrite new_events_app; [|reflexivity].
Qed.

(** On a feed of four posts of which p1 and p2 are in the ledger, part_000
    delivers p3 and p4 and part_001 delivers p3; with p1, p2 and p3 in the
    ledger, part_001 looks at nothing beyond them and answers [synced: 0],
    although p4 is new. *)
Lemma C4_witness :
  lit "p2" ∈ synced_posts warm_world
  ∧ Part000.sync_post four_posts_net (Some (lit "token")) (Some (lit "@channel")) 0
      (text_post "p2") warm_world = (Returned 0%nat, warm_world)
  ∧ (Part000.post_api_sync four_posts_net full_request warm_world).1
    = Returned (SYNC_COMPLETE 2)
  ∧ (Part001.post_api_sync four_posts_net full_request warm_world).1
    = Returned (SYNC_COMPLETE 1)
  ∧ Part001.post_api_sync four_posts_net full_request warmer_world
    = (Returned (SYNC_COMPLETE 0), after_fetch four_posts_net warmer_world full_request).
Proof.
  assert (H2 : lit "p2" ∈ synced_posts warm_world) by by_compute.
  assert (H3 : Forall (λ q, post_id q ∈ synced_posts warmer_world)
                 (Part001.postsToProcess four_posts))
    by (repeat constructor; by_compute).
  destruct C4_known_items_are_skipped as (Hturn & Hmixed & Hwarm).
  destruct (Hturn four_posts_net (Some (lit "token")) (Some (lit "@channel")) 0%nat
              (text_post "p2") warm_world H2) as (Hturn0 & _).
  destruct (Hmixed four_posts_net full_request warm_world four_posts_data four_posts
              [text_post "p1"] (text_post "p2") [text_post "p3"; text_post "p4"]
              eq_refl eq_refl eq_refl H2) as (Hmixed0 & _).
  destruct (Hmixed four_posts_net full_request warm_world four_posts_data four_posts
              [text_post "p1"] (text_post "p2") [text_post "p3"]
              eq_refl eq_refl eq_refl H2) as (_ & Hmixed1).
  destruct (Hwarm four_posts_net full_request warmer_world four_posts_data four_posts
              eq_refl eq_refl eq_refl) as (_ & Hwarm1 & _).
  split_and!.
  - exact H2.
  - exact Hturn0.
  - rewrite (Hmixed0 eq_refl). vm_compute. reflexivity.
  - rewrite (Hmixed1 eq_refl eq_refl). vm_compute. reflexivity.
  - exact (Hwarm1 eq_refl H3).
Defined.

(** ** The photo that is refused *)

Lemma fetch_telegram_run net req w :
  fetch_telegram net req w =
    (match telegram net (trace w) req with
     | FetchRejected msg => Thrown (TypeError msg)
     | FetchResponse o j => Returned {| ok := o; json_body := j |}
     end,
     emit (EvTelegram req (telegram net (trace w) req)) w).
Proof. unfold fetch_telegram. by destruct (telegram _ _ _). Qed.

(** C5 against the code.  The photo post p2 is new and Telegram refuses
    every call with a JSON error.  The part_001 handler sends the photo,
    logs the refusal and retries once as text with the same message; the
    retry is refused as well, and nothing follows (lines 224-227 have no
    [else]): the turn returns normally with the count as it was, the only
    console line is the one of the first refusal, nothing is recorded and
    the cycle answers 200 with [synced: 0].  No delivery error surfaces.
    [sendToTelegram], in the same file, throws [Telegram failed: ...] after
    the same two refusals.  The part_000 handler, on the same input, makes
    one call and no retry at all. *)
Theorem C5_part001_refused_retry_is_silent :
  Part001.sync_post refusing_net (Some (lit "token")) (Some (lit "@channel")) 0
    (photo_post "p2") fresh_world
  = (Returned 0%nat,
     after_retry_failed fresh_world
       (sendPhoto_request (Some (lit "token")) (Some (lit "@channel"))
          (Some (lit "https://img.example/poster.png")) p2_message)
       (sendMessage_request (Some (lit "token")) (Some (lit "@channel")) p2_message)
       (lit "{error_code:400}") refused)
  ∧ telegram_answers
      (trace (Part001.post_api_sync refusing_net full_request fresh_world).2)
    = [false; false]
  ∧ console_errors
      (trace (Part001.post_api_sync refusing_net full_request fresh_world).2)
    = [EvConsoleError (lit "Telegram Send Failed:") (LogTelegram (lit "{error_code:400}"))]
  ∧ synced_posts (Part001.post_api_sync refusing_net full_request fresh_world).2 = ∅
  ∧ (Part001.post_api_sync refusing_net full_request fresh_world).1
    = Returned (SYNC_COMPLETE 0)
  ∧ (sendToTelegram refusing_net 2 p2_details (lit "https://blog.example/p2")
       (Some (lit "https://img.example/poster.png")) telegram_world).1
    = Thrown (Error (lit "Telegram failed: " ++ lit "{error_code:400}"))
  ∧ telegram_answers
      (trace (sendToTelegram refusing_net 2 p2_details (lit "https://blog.example/p2")
                (Some (lit "https://img.example/poster.png")) telegram_world).2)
    = [false; false]
  ∧ telegram_answers
      (trace (Part000.post_api_sync refusing_net full_request fresh_world).2)
    = [false]
  ∧ (Part000.post_api_sync refusing_net full_request fresh_world).1
    = Returned (SYNC_COMPLETE 0).
Proof. split_and!; vm_compute; reflexivity. Qed.

(** X27.  part_001, a post new to the ledger, with an image, whose photo
    call is answered with a failure that carries a JSON body: the handler
    logs the failure and sends the same full message once more, as text.
    If that retry is accepted the id is inserted and the count grows by
    one; if it is refused nothing more is sent, the ledger and the count
    stay as they were, and the turn ends normally; if the retry cannot be
    sent at all the turn throws (and the loop's [catch] logs it). *)
Theorem X27_part001_refused_photo_is_retried_once :
  ∀ net bt ci n p w imageUrl details e,
    post_id p ∉ synced_posts w →
    resolve_image p w = (Returned imageUrl, w) →
    truthy imageUrl = true →
    Part001.extractMovieDetails p w = (Returned details, w) →
    let fullMessage := fullMessage_of details p in
    let photo := sendPhoto_request bt ci imageUrl fullMessage in
    let retry := sendMessage_request bt ci fullMessage in
    telegram net (trace w) photo = FetchResponse false (Some e) →
    let w1 := after_retry_failed w photo retry e in
    request_text retry = request_text photo
    ∧ Part001.sync_post net bt ci n p w =
        match telegram net
                (trace w ++ [EvTelegram photo (FetchResponse false (Some e));
                             EvConsoleError (lit "Telegram Send Failed:") (LogTelegram e)])
                retry with
        | FetchResponse true j =>
            (Returned (S n), after_retry_accepted w (post_id p) photo retry e j)
        | FetchResponse false j => (Returned n, w1 (FetchResponse false j))
        | FetchRejected msg => (Thrown (TypeError msg), w1 (FetchRejected msg))
        end.
Proof.
  intros net bt ci n p w imageUrl details e Hnew Himg Htruthy Hdetails
    fullMessage photo retry Hphoto w1.
  split; [done|].
  unfold Part001.sync_post, mbind, M_bind, bind, select_synced.
  rewrite bool_decide_eq_false_2 by done. cbn [negb].
  rewrite Himg, Hdetails. fold fullMessage.
  unfold first_request. rewrite Htruthy. fold photo retry.
  rewrite fetch_telegram_run, Hphoto. cbn [ok json_body json mret M_ret ret].
  unfold console_error. rewrite fetch_telegram_run. flat_trace.
  destruct (telegram net _ retry) as [msg|[|] j]; cbn [ok]; [done| |done].
  unfold insert_synced. cbn [synced_posts].
  rewrite bool_decide_eq_false_2 by done.
  unfold after_retry_accepted. flat_trace. reflexivity.
Qed.

Lemma X27_witness :
  (Part001.sync_post no_photo_net (Some (lit "token")) (Some (lit "@channel")) 0
     (photo_post "p2") fresh_world).1 = Returned 1%nat.
Proof.
  pose proof (X27_part001_refused_photo_is_retried_once no_photo_net
                (Some (lit "token")) (Some (lit "@channel")) 0%nat
                (photo_post "p2") fresh_world
                (Some (lit "https://img.example/poster.png")) _
                (lit "{error_code:400}")
                (not_elem_of_empty (lit "p2")) eq_refl eq_refl eq_refl eq_refl)
    as [_ H].
  rewrite H. reflexivity.
Defined.

(** ** The answer of a cycle *)

Lemma inserts_after_fetch net w req w' evs :
  trace w' = trace (after_fetch net w req) ++ evs →
  inserts (new_events w w') = inserts evs.
Proof.
  intros Htr. unfold after_fetch, emit in Htr; cbn [trace] in Htr.
  rewrite <- app_assoc in Htr. by rewrite (new_events_app _ _ _ Htr).
Qed.

Lemma answer001 net req w :
  ∃ resp w',
    Part001.post_api_sync net req w = (Returned resp, w')
    ∧ field "errors" resp = None
    ∧ ((resp = NO_POSTS ∨ resp = SYNC_COMPLETE (length (inserts (new_events w w'))))
       ∨ (status resp = 400%nat
          ∧ (configured w req = false
             ∨ ∃ data e, listing net w req = Some data ∧ data_error data = Some e))
       ∨ (status resp = 500%nat
          ∧ configured w req = true ∧ listing net w req = None)).
Proof.
  destruct (configured w req) eqn:Hcfg.
  2: { rewrite post_api_sync_unfold001, Hcfg. eexists _, _.
       split_and!; [done|done|]. right. left. by split; [|left]. }
  destruct (listing net w req) as [data|] eqn:Hdata.
  2: { destruct (post_api_sync_no_listing001 _ _ _ Hcfg Hdata) as [e ->].
       destruct (on_sync_error_run001 e (after_fetch net w req))
         as (resp & l & d & -> & Hst & Hf).
       eexists _, _. split_and!; [done|done|]. by right; right. }
  rewrite (post_api_sync_run001 _ _ _ _ Hcfg Hdata).
  destruct (data_error data) as [err|] eqn:Herr.
  { eexists _, _. split_and!; [done|done|]. right. left.
    split; [done|]. right. by exists data, err. }
  destruct (data_items data) as [items|] eqn:Hitems.
  2: { eexists _, _. split_and!; [done|done|]. left. by left. }
  pose proof (sync_posts_effect001 net (botToken_of w req) (chatId_of w req)
                (Part001.postsToProcess items) 0 (after_fetch net w req))
    as [(_ & _ & evs & Htr & _ & _ & Hcount) [m Hm]].
  destruct (Part001.sync_posts _ _ _ _ _ _) as [r w']; cbn [fst snd] in *.
  subst r. eexists _, _. split_and!; [done|done|]. left. right.
  rewrite (inserts_after_fetch _ _ _ _ _ Htr). by rewrite (Hcount m eq_refl).
Qed.

Lemma answer000 net req w :
  ∃ resp w',
    Part000.post_api_sync net req w = (Returned resp, w')
    ∧ field "errors" resp = None
    ∧ (status resp = 200%nat →
       resp = NO_POSTS ∨ resp = SYNC_COMPLETE (length (inserts (new_events w w')))).
Proof.
  destruct (configured w req) eqn:Hcfg.
  2: { rewrite post_api_sync_unfold000, Hcfg. eexists _, _.
       split_and!; [done|done|]. intros [=]. }
  destruct (listing net w req) as [data|] eqn:Hdata.
  2: { destruct (post_api_sync_no_listing000 _ _ _ Hcfg Hdata) as [e ->].
       destruct (on_sync_error_run000 e (after_fetch net w req))
         as (resp & l & d & -> & Hst & Hf).
       eexists _, _. split_and!; [done|done|]. rewrite Hst. intros [=]. }
  rewrite (post_api_sync_run000 _ _ _ _ Hcfg Hdata).
  destruct (data_items data) as [items|] eqn:Hitems.
  2: { eexists _, _. split_and!; [done|done|]. by left. }
  pose proof (sync_posts_effect000 net (botToken_of w req) (chatId_of w req)
                items 0 (after_fetch net w req))
    as (_ & _ & evs & Htr & _ & _ & Hcount).
  destruct (Part000.sync_posts _ _ _ _ _ _) as [[m|e] w']; cbn [fst snd] in *.
  - eexists _, _. split_and!; [done|done|]. right.
    rewrite (inserts_after_fetch _ _ _ _ _ Htr). by rewrite (Hcount m eq_refl).
  - destruct (on_sync_error_run000 e w') as (resp & l & d & -> & Hst & Hf).
    eexists _, _. split_and!; [done|done|]. rewrite Hst. intros [=].
Qed.

(** C8, as the handlers have it.  Every sync request gets a JSON object
    back, never an uncaught error, and no answer carries a per-item error
    list.  In part_001 the answer is [{message, synced}] with status 200,
    where [synced] is the number of ledger inserts of the cycle, unless the
    configuration is incomplete or Blogger reported an error (400), or the
    listing could not be fetched and parsed (500); what happens to single
    items never changes the status.  In part_000 an answer with status 200
    has that same shape. *)
Theorem C8_answer_of_a_cycle :
  ∀ net req w,
    (∃ resp w',
       Part001.post_api_sync net req w = (Returned resp, w')
       ∧ field "errors" resp = None
       ∧ ((resp = NO_POSTS
           ∨ resp = SYNC_COMPLETE (length (inserts (new_events w w'))))
          ∨ (status resp = 400%nat
             ∧ (configured w req = false
                ∨ ∃ data e, listing net w req = Some data ∧ data_error data = Some e))
          ∨ (status resp = 500%nat
             ∧ configured w req = true ∧ listing net w req = None)))
    ∧ (∃ resp w',
         Part000.post_api_sync net req w = (Returned resp, w')
         ∧ field "errors" resp = None
         ∧ (status resp = 200%nat →
            resp = NO_POSTS
            ∨ resp = SYNC_COMPLETE (length (inserts (new_events w w'))))).
Proof. intros net req w. split; [apply answer001 | apply answer000]. Qed.

(** C8 as the specification states it fails: p1 is refused by Telegram and
    p2 is delivered, the cycle completes, and its answer is exactly
    [{message: Sync complete, synced: 1}].  There is no error list in it and
    nothing in it names p1. *)
Lemma C8_counterexample :
  (Part001.post_api_sync no_text_net full_request fresh_world).1
  = Returned (SYNC_COMPLETE 1)
  ∧ body (SYNC_COMPLETE 1)
    = [("message", JString (lit "Sync complete")); ("synced", JNumber 1)]
  ∧ field "errors" (SYNC_COMPLETE 1) = None
  ∧ synced_posts (Part001.post_api_sync no_text_net full_request fresh_world).2
    = {[ lit "p2" ]}
  ∧ telegram_answers
      (trace (Part001.post_api_sync no_text_net full_request fresh_world).2)
    = [false; true].
Proof. split_and!; vm_compute; reflexivity. Qed.

(** ** An error reported by Blogger *)

(** part_001 checks [data.error] before anything else: the cycle ends with
    status 400 and the upstream message, and Telegram is never called. *)
Lemma upstream_error001 net req w data e :
  configured w req = true →
  listing net w req = Some data →
  data_error data = Some e →
  Part001.post_api_sync net req w
  = (Returned (UPSTREAM_ERROR e),
     emit (EvConsoleError (lit "Blogger API Error:") (LogBlogger e))
       (after_fetch net w req))
  ∧ status (UPSTREAM_ERROR e) = 400%nat
  ∧ telegram_calls (new_events w (Part001.post_api_sync net req w).2) = []
  ∧ synced_posts (Part001.post_api_sync net req w).2 = synced_posts w.
Proof.
  intros Hcfg Hdata Herr.
  rewrite (post_api_sync_run001 _ _ _ _ Hcfg Hdata), Herr.
  split_and!; [done..| |done].
  cbn [snd]. unfold after_fetch. by erewrite new_events_app; [|flat_trace; reflexivity].
Qed.

(** A listing without items (and, for part_001, without an error) ends the
    cycle with status 200 and [synced: 0]. *)
Lemma empty_feed net req w data :
  configured w req = true →
  listing net w req = Some data →
  data_error data = None →
  data_items data = None ∨ data_items data = Some [] →
  ∃ resp,
    (resp = NO_POSTS ∨ resp = SYNC_COMPLETE 0)
    ∧ Part000.post_api_sync net req w = (Returned resp, after_fetch net w req)
    ∧ Part001.post_api_sync net req w = (Returned resp, after_fetch net w req).
Proof.
  intros Hcfg Hdata Herr Hitems.
  rewrite (post_api_sync_run000 _ _ _ _ Hcfg Hdata).
  rewrite (post_api_sync_run001 _ _ _ _ Hcfg Hdata), Herr.
  destruct Hitems as [->| ->].
  - exists NO_POSTS. split_and!; [by left|done..].
  - exists (SYNC_COMPLETE 0). split_and!; [by right|done..].
Qed.

(** part_000 never looks at [data.error]: a listing that has no items is an
    empty feed, whatever else it says. *)
Lemma upstream_error000 net req w data :
  configured w req = true →
  listing net w req = Some data →
  data_items data = None →
  Part000.post_api_sync net req w = (Returned NO_POSTS, after_fetch net w req).
Proof.
  intros Hcfg Hdata Hitems.
  by rewrite (post_api_sync_run000 _ _ _ _ Hcfg Hdata), Hitems.
Qed.

(** C7 fails on part_000.  Blogger answers a request that has a bad key
    with [{error: {message: API key not valid}}]; part_000 answers 200
    [No posts found, synced: 0], as for an empty feed, and logs nothing.
    part_001 answers the same request with 400 and the upstream message. *)
Theorem C7_part000_reads_upstream_error_as_empty_feed :
  Part000.post_api_sync bad_key_net full_request fresh_world
  = (Returned NO_POSTS, after_fetch bad_key_net fresh_world full_request)
  ∧ status NO_POSTS = 200%nat
  ∧ console_errors
      (trace (Part000.post_api_sync bad_key_net full_request fresh_world).2) = []
  ∧ (Part001.post_api_sync bad_key_net full_request fresh_world).1
    = Returned (UPSTREAM_ERROR bad_key)
  ∧ status (UPSTREAM_ERROR bad_key) = 400%nat.
Proof. split_and!; vm_compute; reflexivity. Qed.

(** ** One failing item and the rest of the cycle *)

(** In part_001 a turn never throws, *)
Lemma try_sync_post_returns001 net bt ci n p w :
  ∃ m w', Part001.try_sync_post net bt ci n p w = (Returned m, w').
Proof.
  pose proof (try_sync_post_effect001 net bt ci n p w) as [_ [m Hm]].
  destruct (Part001.try_sync_post net bt ci n p w) as [r w']; cbn [fst] in Hm.
  subst r. by eexists _, _.
Qed.

(** so the loop never throws, *)
Lemma sync_posts_returns001 net bt ci posts n w :
  ∃ m w', Part001.sync_posts net bt ci posts n w = (Returned m, w').
Proof.
  pose proof (sync_posts_effect001 net bt ci posts n w) as [_ [m Hm]].
  destruct (Part001.sync_posts net bt ci posts n w) as [r w']; cbn [fst] in Hm.
  subst r. by eexists _, _.
Qed.

(** and every post of the list gets its turn, whatever happened to the
    posts before it: the loop is the loop over the posts before [p], then
    the turn of [p], then the loop over the posts after it. *)
Lemma every_post_gets_its_turn001 net bt ci before p after n w :
  ∃ n1 w1 n2 w2,
    Part001.sync_posts net bt ci before n w = (Returned n1, w1)
    ∧ Part001.try_sync_post net bt ci n1 p w1 = (Returned n2, w2)
    ∧ Part001.sync_posts net bt ci (before ++ p :: after) n w
      = Part001.sync_posts net bt ci after n2 w2.
Proof.
  destruct (sync_posts_returns001 net bt ci before n w) as (n1 & w1 & H1).
  destruct (try_sync_post_returns001 net bt ci n1 p w1) as (n2 & w2 & H2).
  exists n1, w1, n2, w2. split_and!; [done..|].
  rewrite sync_posts_app001, H1. cbn [Part001.sync_posts].
  unfold mbind, M_bind, bind. by rewrite H2.
Qed.

(** A turn of part_001 that does not leave the id in the ledger leaves a
    [console.error] line. *)
Lemma failed_turn_is_logged001 net bt ci n p w :
  wp (Part001.try_sync_post net bt ci n p)
    (λ _ w', post_id p ∈ synced_posts w'
             ∨ console_errors (new_events w w') ≠ []) w.
Proof.
  unfold Part001.try_sync_post, Part001.sync_post.
  repeat wp_step; flat_trace.
  all: try (left; set_solver).
  all: try (left; apply negb_false_iff, bool_decide_eq_true in Heqb; done).
  all: right; erewrite new_events_app; [|flat_trace; reflexivity];
    unfold console_errors; rewrite ?filter_app; cbn; try done;
    by destruct (filter _ _).
Qed.

(** C2 fails on part_000.  The feed lists a post without body and then a
    good post.  part_000 has no [try] around a turn: the TypeError of the
    first post reaches the handler's [catch], the cycle answers 500 and the
    second post is never looked at (no Telegram call, empty ledger).
    part_001 logs the first post and delivers the second. *)
Theorem C2_part000_one_bad_item_aborts_the_cycle :
  (Part000.post_api_sync bare_first_net full_request fresh_world).1
  = Returned (json_response 500 [("error", JString (message UNDEFINED_MATCH))])
  ∧ telegram_calls
      (trace (Part000.post_api_sync bare_first_net full_request fresh_world).2) = []
  ∧ synced_posts (Part000.post_api_sync bare_first_net full_request fresh_world).2 = ∅
  ∧ (Part001.post_api_sync bare_first_net full_request fresh_world).1
    = Returned (SYNC_COMPLETE 1)
  ∧ synced_posts (Part001.post_api_sync bare_first_net full_request fresh_world).2
    = {[ lit "p2" ]}.
Proof. split_and!; vm_compute; reflexivity. Qed.

(** ** The cap on the items of a cycle *)

(** part_001 runs its loop on the first three items only: the items after
    them have no part in the cycle, and an id that the cycle adds to the
    ledger is the id of one of the first three. *)
Lemma only_first_three001 net req w data items :
  configured w req = true →
  listing net w req = Some data →
  data_error data = None →
  data_items data = Some items →
  Part001.post_api_sync net req w =
    match Part001.sync_posts net (botToken_of w req) (chatId_of w req)
            (take 3 items) 0 (after_fetch net w req) with
    | (Returned n, w') => (Returned (SYNC_COMPLETE n), w')
    | (Thrown e, w') => Part001.on_sync_error e w'
    end
  ∧ ∀ id, id ∈ synced_posts (Part001.post_api_sync net req w).2 →
          id ∉ synced_posts w →
          ∃ p, p ∈ take 3 items ∧ post_id p = id.
Proof.
  intros Hcfg Hdata Herr Hitems.
  rewrite (post_api_sync_run001 _ _ _ _ Hcfg Hdata), Herr, Hitems.
  split; [done|]. unfold Part001.postsToProcess.
  pose proof (sync_posts_effect001 net (botToken_of w req) (chatId_of w req)
                (take 3 items) 0 (after_fetch net w req))
    as [(_ & _ & evs & _ & _ & Hnew & _) [m Hm]].
  destruct (Part001.sync_posts _ _ _ _ _ _) as [r w']; cbn [fst snd] in *.
  subst r. cbn [snd]. intros id Hin Hnot.
  destruct (Hnew id Hin Hnot) as (p & Hp & Hid & _). by exists p.
Qed.

(** C3 fails on part_000.  The feed lists four new posts and Telegram
    accepts every message: part_000 loops over [data.items] as it came,
    delivers all four and records all four, the fourth included.  part_001,
    on the same feed, stops after three. *)
Theorem C3_part000_processes_every_item :
  (Part000.post_api_sync four_posts_net full_request fresh_world).1
  = Returned (SYNC_COMPLETE 4)
  ∧ synced_posts (Part000.post_api_sync four_posts_net full_request fresh_world).2
    = {[ lit "p1"; lit "p2"; lit "p3"; lit "p4" ]}
  ∧ length (telegram_calls
      (trace (Part000.post_api_sync four_posts_net full_request fresh_world).2))
    = 4%nat
  ∧ (Part001.post_api_sync four_posts_net full_request fresh_world).1
    = Returned (SYNC_COMPLETE 3)
  ∧ synced_posts (Part001.post_api_sync four_posts_net full_request fresh_world).2
    = {[ lit "p1"; lit "p2"; lit "p3" ]}.
Proof. split_and!; vm_compute; reflexivity. Qed.

(** ** [sendToTelegram] *)

(** Two levels of recursion are all the function uses: with fuel for two
    calls it never runs out, and more fuel changes nothing. *)
Lemma sendToTelegram_fuel net fuel message url imageUrl w :
  sendToTelegram net (S (S fuel)) message url imageUrl w
  = sendToTelegram net 2 message url imageUrl w
  ∧ (sendToTelegram net 2 message url imageUrl w).1 ≠ Returned None.
Proof.
  cbn [sendToTelegram]. unfold mbind, M_bind, bind, getSetting.
  destruct (negb _ || negb _); [done|].
  rewrite fetch_telegram_run.
  destruct (telegram net _ _) as [msg|[|] [e|]]; cbn [ok negb json json_body]; try done.
  unfold console_error, mret, M_ret, ret. cbv beta iota.
  destruct (truthy imageUrl); [|done].
  destruct (negb _ || negb _); [done|].
  rewrite !fetch_telegram_run.
  destruct (telegram net _ _) as [msg'|[|] [e'|]]; cbn [ok negb json json_body]; done.
Qed.

(** The helper does surface the second failure: with credentials stored, a
    photo that is refused and a text retry that is refused too end in
    [Error: Telegram failed: ...], after exactly two calls. *)
Lemma sendToTelegram_second_failure_throws net message url imageUrl w e e' :
  truthy (js_or (settings w !! "TELEGRAM_BOT_TOKEN") (env w !! "TELEGRAM_BOT_TOKEN")) = true →
  truthy (js_or (settings w !! "TELEGRAM_CHANNEL_ID") (env w !! "TELEGRAM_CHANNEL_ID")) = true →
  truthy imageUrl = true →
  let botToken := js_or (settings w !! "TELEGRAM_BOT_TOKEN") (env w !! "TELEGRAM_BOT_TOKEN") in
  let chatId := js_or (settings w !! "TELEGRAM_CHANNEL_ID") (env w !! "TELEGRAM_CHANNEL_ID") in
  let fullMessage := message ++ DOWNLOAD_NOW ++ url in
  let photo := sendPhoto_request botToken chatId imageUrl fullMessage in
  let retry := sendMessage_request botToken chatId fullMessage in
  let log e := EvConsoleError (lit "Telegram API Error:") (LogTelegram e) in
  telegram net (trace w) photo = FetchResponse false (Some e) →
  telegram net (trace w ++ [EvTelegram photo (FetchResponse false (Some e)); log e])
    retry = FetchResponse false (Some e') →
  ∃ w', sendToTelegram net 2 message url imageUrl w
        = (Thrown (Error (lit "Telegram failed: " ++ e')), w')
        ∧ trace w' = trace w ++
            [EvTelegram photo (FetchResponse false (Some e)); log e;
             EvTelegram retry (FetchResponse false (Some e')); log e']
        ∧ synced_posts w' = synced_posts w.
Proof.
  intros Hbot Hchat Himg botToken chatId fullMessage photo retry log Hphoto Hretry.
  cbn [sendToTelegram]. unfold mbind, M_bind, bind, getSetting.
  fold botToken chatId. cbv beta iota. fold botToken chatId.
  unfold botToken, chatId at 1 2. rewrite Hbot, Hchat. cbn [negb orb].
  rewrite Himg. fold fullMessage. fold botToken chatId photo.
  rewrite fetch_telegram_run, Hphoto. cbn [ok negb json json_body].
  unfold console_error, mret, M_ret, ret. cbv beta iota.
  cbn [settings env emit]. fold botToken chatId.
  unfold botToken, chatId at 1 2. rewrite Hbot, Hchat. cbn [negb orb truthy].
  fold botToken chatId retry.
  rewrite fetch_telegram_run. flat_trace. fold (log e). rewrite Hretry.
  cbn [ok negb json json_body]. cbv beta iota. unfold throw.
  eexists. split_and!; [reflexivity| |reflexivity].
  flat_trace. reflexivity.
Qed.

(** * The rest of the code *)

(** ** Stripping tags (part_001, line 71) *)

Lemma has_gt_cons c s : has_gt (c :: s) = (GT =? c) || has_gt s.
Proof. done. Qed.

Lemma has_gt_strip_tags_from b s :
  has_gt (strip_tags_from b s) = true → has_gt s = true.
Proof.
  revert b. induction s as [|c s IH]; intros b; [done|].
  cbn [strip_tags_from]. rewrite (has_gt_cons c s).
  destruct b.
  - destruct (c =? GT) eqn:Hc.
    + intros _. apply N.eqb_eq in Hc. by subst c.
    + intros H. apply IH in H. rewrite H. by rewrite orb_true_r.
  - destruct ((c =? LT) && has_gt s) eqn:Hlt.
    + intros H. apply IH in H. rewrite H. by rewrite orb_true_r.
    + rewrite has_gt_cons. intros H. apply orb_true_iff in H as [H|H].
      * by rewrite H.
      * apply IH in H. rewrite H. by rewrite orb_true_r.
Qed.

Lemma has_tag_strip_tags_from b s : has_tag (strip_tags_from b s) = false.
Proof.
  revert b. induction s as [|c s IH]; intros b; [done|].
  cbn [strip_tags_from]. destruct b.
  - destruct (c =? GT); apply IH.
  - destruct ((c =? LT) && has_gt s) eqn:Hlt; [apply IH|].
    cbn [has_tag]. rewrite IH, orb_false_r.
    destruct (c =? LT); [|done]. cbn [andb] in *.
    destruct (has_gt (strip_tags_from false s)) eqn:Hgt; [|done].
    apply has_gt_strip_tags_from in Hgt. congruence.
Qed.

Lemma strip_tags_from_no_tag s : has_tag s = false → strip_tags_from false s = s.
Proof.
  induction s as [|c s IH]; [done|]. cbn [has_tag strip_tags_from].
  intros H. apply orb_false_iff in H as [H1 H2]. rewrite H1. by rewrite IH.
Qed.

Lemma length_strip_tags_from b s :
  (length (strip_tags_from b s) ≤ length s)%nat.
Proof.
  revert b. induction s as [|c s IH]; intros b; [done|].
  cbn [strip_tags_from]. pose proof (IH true). pose proof (IH false).
  destruct b.
  - destruct (c =? GT); cbn [length]; lia.
  - destruct ((c =? LT) && has_gt s); cbn [length]; lia.
Qed.

(** X1.  What [replace(/<[^>]*>/g, empty)] returns holds no tag any more:
    no [<] of the result has a [>] after it.  So stripping twice is stripping
    once, a text without tags comes back as it is, and the result is never
    longer than the text. *)
Theorem X1_strip_tags_leaves_no_tag :
  ∀ s,
    has_tag (strip_tags s) = false
    ∧ strip_tags (strip_tags s) = strip_tags s
    ∧ (has_tag s = false → strip_tags s = s)
    ∧ (length (strip_tags s) ≤ length s)%nat.
Proof.
  intros s. unfold strip_tags. split_and!.
  - apply has_tag_strip_tags_from.
  - apply strip_tags_from_no_tag, has_tag_strip_tags_from.
  - apply strip_tags_from_no_tag.
  - apply length_strip_tags_from.
Qed.

Lemma X1_witness : strip_tags (lit "2 < 3") = lit "2 < 3".
Proof.
  apply (X1_strip_tags_leaves_no_tag (lit "2 < 3")). reflexivity.
Defined.

Lemma has_tag_take n s : has_tag s = false → has_tag (take n s) = false.
Proof.
  revert n. induction s as [|c s IH]; intros [|n]; try done.
  cbn [has_tag take]. intros H. apply orb_false_iff in H as [H1 H2].
  rewrite (IH n H2), orb_false_r.
  destruct (c =? LT); [|done]. cbn [andb] in *.
  destruct (has_gt (take n s)) eqn:Hgt; [|done].
  unfold has_gt in *. apply existsb_exists in Hgt as (x & Hin & Hx).
  assert (existsb (N.eqb GT) s = true); [|congruence].
  apply existsb_exists. exists x. split; [|done].
  apply list_elem_of_In. apply list_elem_of_In in Hin.
  by eapply subseteq_take.
Qed.

(** X2.  The caption of part_001 is built without touching the world and
    without failing, whatever is missing from the post.  It is the title in
    bold (New Movie Post when the title is missing or empty), a blank line,
    and an excerpt of at most 200 code units of the body that holds no tag,
    followed by three dots. *)
Theorem X2_caption_of_part001 :
  ∀ p w,
    ∃ title excerpt,
      Part001.extractMovieDetails p w
      = (Returned (lit "<b>" ++ title ++ lit "</b>" ++ [LF; LF] ++ excerpt ++ lit "..."), w)
      ∧ title ≠ []
      ∧ (truthy (post_title p) = true → Some title = post_title p)
      ∧ (truthy (post_title p) = false → title = lit "New Movie Post")
      ∧ (length excerpt ≤ 200)%nat
      ∧ has_tag excerpt = false
      ∧ (post_content p = None → excerpt = []).
Proof.
  intros p w.
  exists (tpl (js_or (post_title p) (Some (lit "New Movie Post")))),
         (substring0 200 (strip_tags (tpl (js_or (post_content p) (Some []))))).
  split_and!.
  - reflexivity.
  - unfold js_or. destruct (post_title p) as [[|c t]|]; done.
  - unfold js_or. intros H. rewrite H. by destruct (post_title p).
  - unfold js_or. by intros ->.
  - unfold substring0. rewrite length_take. lia.
  - apply has_tag_take, has_tag_strip_tags_from.
  - by intros ->.
Qed.

Lemma X2_witness :
  ∃ title excerpt,
    Part001.extractMovieDetails (bare_post "p1") fresh_world
    = (Returned (lit "<b>" ++ title ++ lit "</b>" ++ [LF; LF] ++ excerpt ++ lit "..."),
       fresh_world)
    ∧ Some title = post_title (bare_post "p1") ∧ excerpt = [].
Proof.
  destruct (X2_caption_of_part001 (bare_post "p1") fresh_world)
    as (title & excerpt & Hrun & _ & Htitle & _ & _ & _ & Hbody).
  exists title, excerpt. split_and!; [exact Hrun | by apply Htitle | by apply Hbody].
Defined.

(** ** The image pattern (part_000 line 173, part_001 line 185) *)

Lemma strip_prefix_Some p s r : strip_prefix p s = Some r → s = p ++ r.
Proof.
  revert s. induction p as [|a p IH]; intros [|b s]; cbn; try done.
  - by intros [= ->].
  - by intros [= ->].
  - destruct (a =? b) eqn:Hab; [|done]. apply N.eqb_eq in Hab. subst b.
    intros H. by rewrite (IH _ H).
Qed.

Lemma strip_prefix_app p r : strip_prefix p (p ++ r) = Some r.
Proof.
  induction p as [|a p IH]; [by destruct r|].
  cbn. by rewrite N.eqb_refl.
Qed.

Lemma span_group_spec s g r :
  span_group s = (g, r) →
  s = g ++ r ∧ forallb group_char g = true.
Proof.
  revert g r. induction s as [|c s IH]; intros g r; cbn [span_group].
  - by intros [= <- <-].
  - destruct ((c =? QUOTE) || (c =? GT)) eqn:Hc.
    + by intros [= <- <-].
    + destruct (span_group s) as [g' r'] eqn:Hs. intros [= <- <-].
      destruct (IH _ _ eq_refl) as [-> Hg]. split; [done|].
      cbn [forallb]. unfold group_char at 1. by rewrite Hc, Hg.
Qed.

Lemma span_group_app g r :
  forallb group_char g = true →
  span_group (g ++ QUOTE :: r) = (g, QUOTE :: r).
Proof.
  induction g as [|c g IH]; [done|].
  cbn [forallb app span_group]. intros H. apply andb_true_iff in H as [Hc Hg].
  unfold group_char in Hc. apply negb_true_iff in Hc. rewrite Hc.
  by rewrite (IH Hg).
Qed.

Lemma match_src_Some s g :
  match_src s = Some g →
  g ≠ [] ∧ forallb group_char g = true
  ∧ ∃ rest, s = lit "src=" ++ [QUOTE] ++ g ++ [QUOTE] ++ rest.
Proof.
  unfold match_src.
  destruct (strip_prefix _ s) as [r|] eqn:Hp; [|done].
  apply strip_prefix_Some in Hp.
  destruct (span_group r) as [g' r'] eqn:Hs.
  apply span_group_spec in Hs as [-> Hg].
  destruct g' as [|c g']; [done|]. destruct r' as [|q r']; [done|].
  destruct (q =? QUOTE) eqn:Hq; [|done]. apply N.eqb_eq in Hq. subst q.
  intros [= <-]. split_and!; [done|done|].
  exists r'. rewrite Hp. by rewrite <- !app_assoc.
Qed.

Lemma match_src_app g rest :
  g ≠ [] → forallb group_char g = true →
  match_src (lit "src=" ++ [QUOTE] ++ g ++ [QUOTE] ++ rest) = Some g.
Proof.
  intros Hne Hg. unfold match_src.
  rewrite (app_assoc (lit "src=") [QUOTE]), strip_prefix_app.
  cbn [app]. rewrite (span_group_app _ _ Hg).
  destruct g; [done|]. by rewrite N.eqb_refl.
Qed.

Lemma greedy_src_Some s g :
  greedy_src s = Some g →
  ∃ mid t, s = mid ++ t ∧ forallb (λ c, negb (c =? GT)) mid = true
           ∧ match_src t = Some g.
Proof.
  induction s as [|c s IH]; cbn [greedy_src].
  - intros H. by exists [], [].
  - destruct (c =? GT) eqn:Hc.
    + intros H. by exists [], (c :: s).
    + destruct (greedy_src s) as [g'|] eqn:Hs.
      * intros [= ->]. destruct (IH eq_refl) as (mid & t & -> & Hmid & Ht).
        exists (c :: mid), t. split_and!; [done| |done].
        cbn [forallb]. by rewrite Hc, Hmid.
      * intros H. by exists [], (c :: s).
Qed.

Lemma greedy_src_app mid t :
  forallb (λ c, negb (c =? GT)) mid = true →
  is_Some (match_src t) → is_Some (greedy_src (mid ++ t)).
Proof.
  intros Hmid Ht. induction mid as [|c mid IH].
  - cbn [app]. destruct t as [|c t]; [done|]. cbn [greedy_src].
    destruct (c =? GT); [done|]. by destruct (greedy_src t).
  - cbn [forallb] in Hmid. apply andb_true_iff in Hmid as [Hc Hmid].
    apply negb_true_iff in Hc. cbn [app greedy_src]. rewrite Hc.
    destruct (IH Hmid) as [g ->]. by eexists.
Qed.

Lemma match_img_at_Some s g :
  match_img_at s = Some g →
  g ≠ [] ∧ forallb group_char g = true
  ∧ ∃ gap rest,
      s = lit "<img" ++ gap ++ lit "src=" ++ [QUOTE] ++ g ++ [QUOTE] ++ rest
      ∧ gap ≠ [] ∧ forallb (λ c, negb (c =? GT)) gap = true.
Proof.
  unfold match_img_at.
  destruct (strip_prefix _ s) as [[|c r]|] eqn:Hp; [done| |done].
  apply strip_prefix_Some in Hp.
  destruct (c =? GT) eqn:Hc; [done|]. intros Hg.
  apply greedy_src_Some in Hg as (mid & t & -> & Hmid & Ht).
  apply match_src_Some in Ht as (Hne & Hgrp & rest & ->).
  split_and!; [done..|].
  exists (c :: mid), rest. split_and!; [by rewrite Hp|done|].
  cbn [forallb]. by rewrite Hc, Hmid.
Qed.

Lemma match_img_at_app gap g rest :
  gap ≠ [] → forallb (λ c, negb (c =? GT)) gap = true →
  g ≠ [] → forallb group_char g = true →
  is_Some (match_img_at
             (lit "<img" ++ gap ++ lit "src=" ++ [QUOTE] ++ g ++ [QUOTE] ++ rest)).
Proof.
  intros Hgap Hgt Hne Hg. unfold match_img_at. rewrite strip_prefix_app.
  destruct gap as [|c gap]; [done|].
  cbn [forallb] in Hgt. apply andb_true_iff in Hgt as [Hc Hgt].
  apply negb_true_iff in Hc. rewrite <- app_comm_cons, Hc.
  apply greedy_src_app; [done|]. by rewrite match_src_app.
Qed.

Lemma match_img_is_Some_app pre s :
  is_Some (match_img_at s) → is_Some (match_img (pre ++ s)).
Proof.
  intros Hs. induction pre as [|c pre IH].
  - cbn [app]. destruct Hs as [g Hg]. destruct s; cbn [match_img]; rewrite Hg; by eexists.
  - cbn [app match_img]. destruct (match_img_at (c :: pre ++ s)); [by eexists|done].
Qed.

Lemma match_img_Some s g :
  match_img s = Some g →
  truthy (Some g) = true
  ∧ forallb group_char g = true
  ∧ ∃ before gap rest,
      s = before ++ lit "<img" ++ gap ++ lit "src=" ++ [QUOTE] ++ g ++ [QUOTE] ++ rest
      ∧ gap ≠ [] ∧ forallb (λ c, negb (c =? GT)) gap = true.
Proof.
  induction s as [|c s IH]; cbn [match_img].
  - destruct (match_img_at []) eqn:Hat; [|done]. discriminate Hat.
  - destruct (match_img_at (c :: s)) as [g'|] eqn:Hat.
    + intros [= ->]. apply match_img_at_Some in Hat as (Hne & Hg & gap & rest & Hs & Hgap).
      split_and!; [by destruct g|done|]. by exists [], gap, rest.
    + intros H. destruct (IH H) as (Ht & Hg & before & gap & rest & -> & Hgap).
      split_and!; [done..|]. by exists (c :: before), gap, rest.
Qed.

(** X3.  When the image pattern finds something in a body, what it returns
    is really there: the body holds [<img], then at least one character and
    no [>], then [src=], a quote, the returned text and a quote.  The
    returned text is never empty and holds neither a quote nor a [>], so the
    handler takes it for an image. *)
Theorem X3_match_img_sound :
  ∀ s g,
    match_img s = Some g →
    truthy (Some g) = true
    ∧ forallb group_char g = true
    ∧ ∃ before gap rest,
        s = before ++ lit "<img" ++ gap ++ lit "src=" ++ [QUOTE] ++ g ++ [QUOTE] ++ rest
        ∧ gap ≠ [] ∧ forallb (λ c, negb (c =? GT)) gap = true.
Proof. intros s g Hm. by apply match_img_Some. Qed.

Lemma X3_witness :
  ∃ before gap rest,
    lit "<p><img src=" ++ [QUOTE] ++ lit "a.png" ++ [QUOTE] ++ lit "></p>"
    = before ++ lit "<img" ++ gap ++ lit "src=" ++ [QUOTE] ++ lit "a.png" ++ [QUOTE] ++ rest
    ∧ gap ≠ [] ∧ forallb (λ c, negb (c =? GT)) gap = true.
Proof.
  apply (X3_match_img_sound
           (lit "<p><img src=" ++ [QUOTE] ++ lit "a.png" ++ [QUOTE] ++ lit "></p>")
           (lit "a.png")).
  reflexivity.
Defined.

(** X4.  The image pattern misses nothing: on a body that holds [<img], a
    non-empty gap without [>], [src=], a quote, a non-empty text without
    quote and [>], and a quote, the match succeeds and the address it gives
    is not empty. *)
Theorem X4_match_img_complete :
  ∀ before gap g rest,
    gap ≠ [] → forallb (λ c, negb (c =? GT)) gap = true →
    g ≠ [] → forallb group_char g = true →
    ∃ found,
      match_img (before ++ lit "<img" ++ gap ++ lit "src=" ++ [QUOTE] ++ g
                   ++ [QUOTE] ++ rest) = Some found
      ∧ truthy (Some found) = true.
Proof.
  intros before gap g rest Hgap Hgt Hne Hg.
  destruct (match_img_is_Some_app before _ (match_img_at_app gap g rest Hgap Hgt Hne Hg))
    as [found Hfound].
  exists found. split; [done|].
  by apply match_img_Some in Hfound as [Ht _].
Qed.

Lemma X4_witness :
  ∃ found,
    match_img ([] ++ lit "<img" ++ lit " " ++ lit "src=" ++ [QUOTE] ++ lit "a.png"
                 ++ [QUOTE] ++ lit ">") = Some found
    ∧ truthy (Some found) = true.
Proof.
  apply (X4_match_img_complete [] (lit " ") (lit "a.png") (lit ">")); done.
Defined.

(** ** The settings table (part_000 lines 29-36, part_001 lines 51-58) *)

(** X5.  [setSetting] then [getSetting], for the four configuration names
    and for values that are text the table keeps as it is: a non-empty
    value that was stored is what is read back, whatever the environment
    holds; storing the empty string does not hide the environment; the
    other names read as before; the second of two writes to a name is the
    one that stays; and the ledger, the environment and the trace are not
    touched. *)
Theorem X5_setSetting_getSetting :
  ∀ key other value value' w,
    key ∈ config_keys → other ∈ config_keys →
    plain_text value = true → plain_text value' = true →
    let w' := (setSetting key value w).2 in
    (setSetting key value w).1 = Returned tt
    ∧ getSetting key w'
      = (Returned (if truthy (Some value) then Some value else env w !! key), w')
    ∧ getSetting other w'
      = (Returned (if decide (key = other)
                   then (if truthy (Some value) then Some value else env w !! key)
                   else js_or (settings w !! other) (env w !! other)), w')
    ∧ (setSetting key value' w').2 = (setSetting key value' w).2
    ∧ synced_posts w' = synced_posts w ∧ env w' = env w ∧ trace w' = trace w.
Proof.
  intros key other value value' w _ _ _ _ w'. subst w'.
  unfold setSetting, getSetting, js_or; cbn [fst snd settings env synced_posts trace].
  split_and!; try done.
  - by rewrite lookup_insert_eq.
  - destruct (decide (key = other)) as [<-|Hne].
    + by rewrite lookup_insert_eq.
    + by rewrite lookup_insert_ne.
  - by rewrite insert_insert_eq.
Qed.

Lemma X5_witness :
  getSetting "TELEGRAM_BOT_TOKEN"
    (setSetting "TELEGRAM_BOT_TOKEN" (lit "token") fresh_world).2
  = (Returned (Some (lit "token")),
     (setSetting "TELEGRAM_BOT_TOKEN" (lit "token") fresh_world).2)
  ∧ getSetting "TELEGRAM_CHANNEL_ID"
      (setSetting "TELEGRAM_BOT_TOKEN" (lit "token") fresh_world).2
    = (Returned None, (setSetting "TELEGRAM_BOT_TOKEN" (lit "token") fresh_world).2).
Proof.
  assert (Hkey : "TELEGRAM_BOT_TOKEN"%string ∈ config_keys) by by_compute.
  assert (Hother : "TELEGRAM_CHANNEL_ID"%string ∈ config_keys) by by_compute.
  destruct (X5_setSetting_getSetting "TELEGRAM_BOT_TOKEN" "TELEGRAM_CHANNEL_ID"
              (lit "token") (lit "token2") fresh_world Hkey Hother eq_refl eq_refl)
    as (_ & Hsame & Hdiff & _).
  split; [exact Hsame | exact Hdiff].
Defined.


(** A configured request is never answered with the missing-configuration
    error. *)
Lemma configured_not_missing000 net req w :
  configured w req = true →
  (Part000.post_api_sync net req w).1 ≠ Returned MISSING_000.
Proof.
  intros Hcfg. destruct (listing net w req) as [data|] eqn:Hdata.
  - rewrite (post_api_sync_run000 _ _ _ _ Hcfg Hdata).
    destruct (data_items data); [|by intros [=]].
    destruct (Part000.sync_posts _ _ _ _ _ _) as [[n|e] w3]; [by intros [=]|].
    destruct (on_sync_error_run000 e w3) as (? & ? & ? & -> & Hst & _).
    cbn [fst]. intros [= ->]. discriminate Hst.
  - destruct (post_api_sync_no_listing000 _ _ _ Hcfg Hdata) as [e ->].
    destruct (on_sync_error_run000 e (after_fetch net w req)) as (? & ? & ? & -> & Hst & _).
    cbn [fst]. intros [= ->]. discriminate Hst.
Qed.

Lemma configured_not_missing001 net req w :
  configured w req = true →
  (Part001.post_api_sync net req w).1 ≠ Returned MISSING_001.
Proof.
  intros Hcfg. destruct (listing net w req) as [data|] eqn:Hdata.
  - rewrite (post_api_sync_run001 _ _ _ _ Hcfg Hdata).
    destruct (data_error data) as [err|].
    { cbn [fst]. solve [intros [=] | intros [= H]; vm_compute in H; discriminate H]. }
    destruct (data_items data); [|by intros [=]].
    destruct (Part001.sync_posts _ _ _ _ _ _) as [[n|e] w3]; [by intros [=]|].
    destruct (on_sync_error_run001 e w3) as (? & ? & ? & -> & Hst & _).
    cbn [fst]. intros [= ->]. discriminate Hst.
  - destruct (post_api_sync_no_listing001 _ _ _ Hcfg Hdata) as [e ->].
    destruct (on_sync_error_run001 e (after_fetch net w req)) as (? & ? & ? & -> & Hst & _).
    cbn [fst]. intros [= ->]. discriminate Hst.
Qed.



(** ** The client's check (src/App.tsx, lines 59-72 and 113) *)

(** X7.  A form that passes the client's check before it is posted passes
    the server's check too, in any state of the server: each of the four
    values the handler works with is the one of the form, not a stored one
    and not one of the environment, and the answer is never the
    missing-configuration error. *)
Theorem X7_client_check_implies_server_check :
  ∀ net formData w,
    isConfigured formData = true →
    configured w formData = true
    ∧ apiKey_of w formData = BLOGGER_API_KEY formData
    ∧ blogId_of w formData = BLOGGER_BLOG_ID formData
    ∧ botToken_of w formData = TELEGRAM_BOT_TOKEN formData
    ∧ chatId_of w formData = TELEGRAM_CHANNEL_ID formData
    ∧ (Part000.post_api_sync net formData w).1 ≠ Returned MISSING_000
    ∧ (Part001.post_api_sync net formData w).1 ≠ Returned MISSING_001.
Proof.
  intros net formData w Hform. unfold isConfigured in Hform.
  apply andb_true_iff in Hform as [Hform H4].
  apply andb_true_iff in Hform as [Hform H3].
  apply andb_true_iff in Hform as [H1 H2].
  assert (Hcfg : configured w formData = true).
  { unfold configured. rewrite !resolved_eq. by rewrite H1, H2, H3, H4, H1, H2, H3, H4. }
  unfold apiKey_of, blogId_of, botToken_of, chatId_of. rewrite !resolved_eq.
  rewrite H1, H2, H3, H4.
  split_and!; [done..| |].
  - by apply configured_not_missing000.
  - by apply configured_not_missing001.
Qed.

Lemma X7_witness :
  configured warm_world full_request = true
  ∧ botToken_of warm_world full_request = Some (lit "token").
Proof.
  destruct (X7_client_check_implies_server_check four_posts_net full_request warm_world
              eq_refl) as (Hcfg & _ & _ & Hbot & _).
  split; [exact Hcfg | exact Hbot].
Defined.

(** ** [sendToTelegram] (part_000 lines 79-122, part_001 lines 76-119) *)

(** X8.  Without a stored (or environment) bot token or channel id,
    [sendToTelegram] throws before it calls anything: the world is as it
    was.  The credentials of a sync request play no part in it. *)
Theorem X8_sendToTelegram_needs_stored_credentials :
  ∀ net fuel message url imageUrl w,
    truthy (botToken_of w bare_request) && truthy (chatId_of w bare_request) = false →
    sendToTelegram net (S fuel) message url imageUrl w
    = (Thrown (Error (lit "Telegram credentials missing")), w).
Proof.
  intros net fuel message url imageUrl w Hmissing.
  unfold botToken_of, chatId_of in Hmissing. rewrite !resolved_eq in Hmissing.
  cbn [truthy bare_request TELEGRAM_BOT_TOKEN TELEGRAM_CHANNEL_ID] in Hmissing.
  cbn [sendToTelegram]. unfold mbind, M_bind, bind, getSetting. cbv beta iota.
  apply andb_false_iff in Hmissing as [-> | ->]; [done|].
  by rewrite orb_true_r.
Qed.

Lemma X8_witness :
  sendToTelegram four_posts_net 2 (lit "caption") (lit "https://blog.example/p1")
    None fresh_world
  = (Thrown (Error (lit "Telegram credentials missing")), fresh_world).
Proof.
  apply (X8_sendToTelegram_needs_stored_credentials four_posts_net 1%nat
           (lit "caption") (lit "https://blog.example/p1") None fresh_world).
  reflexivity.
Defined.

Ltac settle_ok :=
  repeat match goal with
         | H : negb ?o = _ |- _ => destruct o; cbn [negb] in H; try discriminate H; clear H
         | H : truthy None = true |- _ => discriminate H
         end.

(** X9.  Any call of [sendToTelegram]: it never writes the ledger or the
    settings and calls nothing but Telegram, twice at most and once when
    there is no image.  It returns only when its last call was accepted
    (after one refused photo at most), and it throws when none was. *)
Theorem X9_sendToTelegram_effect :
  ∀ net message url imageUrl w,
    sendToTelegram_effect imageUrl w
      (sendToTelegram net 2 message url imageUrl w).1
      (sendToTelegram net 2 message url imageUrl w).2.
Proof.
  intros net message url imageUrl w.
  change (wp (sendToTelegram net 2 message url imageUrl)
            (sendToTelegram_effect imageUrl w) w).
  cbn [sendToTelegram]. unfold sendToTelegram_effect.
  repeat wp_step; settle_ok; flat_trace; (split; [done|]); (split; [done|]);
    (split; [done|]).
  all: eexists; (split; [try reflexivity; symmetry; apply app_nil_r|]).
  all: (split; [reflexivity|]); (split; [reflexivity|]).
  all: cbn [telegram_answers omap]; eauto 10.
Qed.

(** X10.  [sendToTelegram] with an image whose photo call is refused with a
    JSON error: the refusal is logged and the same full message is sent once
    more as text, to the same chat.  Accepted, the call returns; refused
    again, it logs and throws [Telegram failed:] with the second error
    document; there is no third call in any case. *)
Theorem X10_sendToTelegram_photo_refused :
  ∀ net message url imageUrl w e,
    truthy (botToken_of w bare_request) = true →
    truthy (chatId_of w bare_request) = true →
    truthy imageUrl = true →
    let botToken := botToken_of w bare_request in
    let chatId := chatId_of w bare_request in
    let fullMessage := message ++ DOWNLOAD_NOW ++ url in
    let photo := sendPhoto_request botToken chatId imageUrl fullMessage in
    let retry := sendMessage_request botToken chatId fullMessage in
    let log e := EvConsoleError (lit "Telegram API Error:") (LogTelegram e) in
    let refusal := [EvTelegram photo (FetchResponse false (Some e)); log e] in
    telegram net (trace w) photo = FetchResponse false (Some e) →
    sendToTelegram net 2 message url imageUrl w =
      match telegram net (trace w ++ refusal) retry with
      | FetchResponse true j =>
          (Returned (Some tt),
           after_events w (refusal ++ [EvTelegram retry (FetchResponse true j)]))
      | FetchResponse false (Some e') =>
          (Thrown (Error (lit "Telegram failed: " ++ e')),
           after_events w
             (refusal ++ [EvTelegram retry (FetchResponse false (Some e')); log e']))
      | FetchResponse false None =>
          (Thrown NOT_JSON,
           after_events w (refusal ++ [EvTelegram retry (FetchResponse false None)]))
      | FetchRejected msg =>
          (Thrown (TypeError msg),
           after_events w (refusal ++ [EvTelegram retry (FetchRejected msg)]))
      end.
Proof.
  intros net message url imageUrl w e Hbot Hchat Himg
    botToken chatId fullMessage photo retry log refusal Hphoto.
  assert (Hb : js_or (settings w !! "TELEGRAM_BOT_TOKEN") (env w !! "TELEGRAM_BOT_TOKEN")
               = botToken).
  { subst botToken. unfold botToken_of. by rewrite resolved_eq. }
  assert (Hc : js_or (settings w !! "TELEGRAM_CHANNEL_ID") (env w !! "TELEGRAM_CHANNEL_ID")
               = chatId).
  { subst chatId. unfold chatId_of. by rewrite resolved_eq. }
  fold botToken in Hbot. fold chatId in Hchat.
  cbn [sendToTelegram]. unfold mbind, M_bind, bind, getSetting. cbv beta iota.
  rewrite Hb, Hc, Hbot, Hchat. cbn [negb orb]. rewrite Himg.
  fold fullMessage. fold photo.
  rewrite fetch_telegram_run, Hphoto. cbn [ok negb json json_body].
  unfold console_error, mret, M_ret, ret. cbv beta iota.
  cbn [settings env emit]. rewrite Hb, Hc, Hbot, Hchat. cbn [negb orb truthy].
  fold fullMessage. fold retry.
  rewrite fetch_telegram_run. flat_trace. fold (log e).
  change [EvTelegram photo (FetchResponse false (Some e)); log e] with refusal.
  unfold after_events.
  destruct (telegram net (trace w ++ refusal) retry) as [msg|[|] [e'|]];
    cbn [ok negb json json_body]; unfold throw, mret, M_ret, ret; cbv beta iota;
    flat_trace; subst refusal; cbn [app]; rewrite <- ?app_assoc; reflexivity.
Qed.

Lemma X10_witness :
  (sendToTelegram no_photo_net 2 (lit "caption") (lit "https://blog.example/p2")
     (Some (lit "https://img.example/poster.png")) telegram_world).1
  = Returned (Some tt).
Proof.
  rewrite (X10_sendToTelegram_photo_refused no_photo_net (lit "caption")
             (lit "https://blog.example/p2") (Some (lit "https://img.example/poster.png"))
             telegram_world (lit "{error_code:400}") eq_refl eq_refl eq_refl eq_refl).
  reflexivity.
Defined.

(** ** The ledger against the trace *)

Lemma inserted_ids_app evs1 evs2 :
  inserted_ids (evs1 ++ evs2) = inserted_ids evs1 ++ inserted_ids evs2.
Proof. apply omap_app. Qed.

Lemma inserted_ids_no_inserts evs : inserts evs = [] → inserted_ids evs = [].
Proof.
  induction evs as [|e evs IH]; [done|].
  unfold inserts in *. rewrite filter_cons.
  destruct e; cbn; try done; case_decide; try done; by auto.
Qed.

Lemma length_inserted_ids evs : length (inserted_ids evs) = length (inserts evs).
Proof.
  induction evs as [|e evs IH]; [done|].
  unfold inserted_ids, inserts in *. rewrite filter_cons.
  destruct e; cbn; case_decide; cbn; try done; by rewrite IH.
Qed.

Lemma ledger_log_nil n w : ledger_log [] n w (Returned n) w.
Proof.
  split_and!; [done..|]. exists []. rewrite app_nil_r. cbn.
  split_and!; [done|set_solver|constructor|by intros id ?%elem_of_nil|].
  intros m [= <-]. lia.
Qed.

Lemma ledger_log_throw p posts n w e w1 :
  post_effect p n w (Thrown e) w1 → ledger_log (p :: posts) n w (Thrown e) w1.
Proof.
  intros (Hs & He & evs & Htr & [(Hl & Hi & _)|(_ & _ & [=] & _)]).
  split_and!; [done..|]. exists evs. rewrite (inserted_ids_no_inserts _ Hi). cbn.
  split_and!; [done|set_solver|constructor|by intros id ?%elem_of_nil|done].
Qed.

Lemma ledger_log_cons p posts n w n1 w1 r w' :
  post_effect p n w (Returned n1) w1 →
  ledger_log posts n1 w1 r w' →
  ledger_log (p :: posts) n w r w'.
Proof.
  intros (Hs1 & He1 & evs1 & Htr1 & Hcases)
         (Hs & He & evs & Htr & Hl & Hnd & Hids & Hcount).
  split_and!; [congruence..|].
  exists (evs1 ++ evs). split; [by rewrite Htr, Htr1, app_assoc|].
  rewrite inserted_ids_app.
  destruct Hcases as [(Hl1 & Hi & Hr)|(Hfresh & Hl1 & Hr & pre & req & j & d & -> & _ & Hpre)].
  - rewrite (inserted_ids_no_inserts _ Hi). cbn [app]. rewrite Hl1 in *.
    split_and!; [done|done| |].
    + intros id Hin. destruct (Hids id Hin) as [Hnot Hp].
      split; [done|]. rewrite fmap_cons. by right.
    + intros m Hm. destruct Hr as [[= <-]|[e [=]]]. by apply Hcount.
  - injection Hr as ->.
    assert (Hone : inserted_ids
                     (pre ++ [EvTelegram req (FetchResponse true j);
                              EvInsertSynced (post_id p)]) = [post_id p]).
    { by rewrite inserted_ids_app, (inserted_ids_no_inserts _ Hpre). }
    rewrite Hone. cbn [app]. rewrite Hl1 in *.
    split_and!.
    + rewrite Hl. set_solver.
    + constructor; [|done]. intros Hin. destruct (Hids _ Hin) as [Hnot _].
      apply Hnot. set_solver.
    + intros id [->|Hin]%elem_of_cons.
      * split; [done|]. rewrite fmap_cons. by left.
      * destruct (Hids id Hin) as [Hnot Hp]. split; [set_solver|].
        rewrite fmap_cons. by right.
    + intros m Hm. rewrite (Hcount m Hm). cbn [length]. lia.
Qed.

Lemma sync_posts_ledger_log000 net bt ci posts :
  ∀ n w, wp (Part000.sync_posts net bt ci posts n) (ledger_log posts n w) w.
Proof.
  induction posts as [|p posts IH]; intros n w.
  - apply wp_ret, ledger_log_nil.
  - cbn [Part000.sync_posts]. apply wp_bind.
    eapply wp_mono; [apply sync_post_effect000|].
    intros [n1|e] w1 Hp.
    + eapply wp_mono; [apply IH|]. intros r w'. by apply ledger_log_cons.
    + by apply ledger_log_throw.
Qed.

Lemma sync_posts_ledger_log001 net bt ci posts :
  ∀ n w, wp (Part001.sync_posts net bt ci posts n) (ledger_log posts n w) w.
Proof.
  induction posts as [|p posts IH]; intros n w.
  - apply wp_ret, ledger_log_nil.
  - cbn [Part001.sync_posts]. apply wp_bind.
    eapply wp_mono; [apply try_sync_post_effect001|].
    intros r w1 [Hp [n1 ->]].
    eapply wp_mono; [apply IH|]. intros r w'. by apply ledger_log_cons.
Qed.

Lemma cycle_ledger_intro w w' evs :
  settings w' = settings w → env w' = env w →
  trace w' = trace w ++ evs →
  synced_posts w' = list_to_set (inserted_ids evs) ∪ synced_posts w →
  NoDup (inserted_ids evs) →
  (∀ id, id ∈ inserted_ids evs → id ∉ synced_posts w) →
  cycle_ledger w w'.
Proof.
  intros Hs He Htr Hl Hnd Hids. unfold cycle_ledger.
  by rewrite (new_events_app _ _ _ Htr).
Qed.

Lemma cycle_ledger_refl w : cycle_ledger w w.
Proof.
  apply (cycle_ledger_intro _ _ []); try done.
  - by rewrite app_nil_r.
  - cbn. set_solver.
  - constructor.
  - by intros id ?%elem_of_nil.
Qed.

(** An event that is not an insert leaves the relation as it is. *)
Lemma cycle_ledger_emit w w' e :
  is_insert e = false → cycle_ledger w w' → cycle_ledger w (emit e w').
Proof.
  intros Hne (Hs & He & Htr & Hl & Hnd & Hids).
  assert (Hid : inserted_ids [e] = []) by (by destruct e).
  apply (cycle_ledger_intro _ _ (new_events w w' ++ [e])); unfold emit; cbn.
  - done.
  - done.
  - by rewrite Htr at 1; rewrite app_assoc.
  - by rewrite inserted_ids_app, Hid, app_nil_r.
  - by rewrite inserted_ids_app, Hid, app_nil_r.
  - by rewrite inserted_ids_app, Hid, app_nil_r.
Qed.

Lemma cycle_ledger_after_fetch net w req : cycle_ledger w (after_fetch net w req).
Proof. by apply cycle_ledger_emit, cycle_ledger_refl. Qed.

Lemma cycle_ledger_posts net w req posts n r w' :
  ledger_log posts n (after_fetch net w req) r w' → cycle_ledger w w'.
Proof.
  intros (Hs & He & evs & Htr & Hl & Hnd & Hids & _).
  unfold after_fetch, emit in *; cbn [trace synced_posts settings env] in *.
  rewrite <- app_assoc in Htr.
  apply (cycle_ledger_intro _ _ _ Hs He Htr); cbn [app inserted_ids omap].
  - done.
  - done.
  - intros id Hin. by apply Hids.
Qed.

Lemma cycle_ledger000 net req w : cycle_ledger w (Part000.post_api_sync net req w).2.
Proof.
  destruct (configured w req) eqn:Hcfg.
  2: { rewrite post_api_sync_unfold000, Hcfg. apply cycle_ledger_refl. }
  destruct (listing net w req) as [data|] eqn:Hdata.
  2: { destruct (post_api_sync_no_listing000 _ _ _ Hcfg Hdata) as [e ->].
       destruct (on_sync_error_run000 e (after_fetch net w req)) as (? & ? & ? & -> & _ & _).
       by apply cycle_ledger_emit, cycle_ledger_after_fetch. }
  rewrite (post_api_sync_run000 _ _ _ _ Hcfg Hdata).
  destruct (data_items data) as [items|]; [|apply cycle_ledger_after_fetch].
  pose proof (sync_posts_ledger_log000 net (botToken_of w req) (chatId_of w req) items 0
                (after_fetch net w req)) as Hposts.
  unfold wp in Hposts.
  destruct (Part000.sync_posts _ _ _ _ _ _) as [[n|e] w']; cbn [fst snd] in *.
  - by eapply cycle_ledger_posts.
  - destruct (on_sync_error_run000 e w') as (? & ? & ? & -> & _ & _).
    apply cycle_ledger_emit; [done|]. by eapply cycle_ledger_posts.
Qed.

Lemma cycle_ledger001 net req w : cycle_ledger w (Part001.post_api_sync net req w).2.
Proof.
  destruct (configured w req) eqn:Hcfg.
  2: { rewrite post_api_sync_unfold001, Hcfg. by apply cycle_ledger_emit, cycle_ledger_refl. }
  destruct (listing net w req) as [data|] eqn:Hdata.
  2: { destruct (post_api_sync_no_listing001 _ _ _ Hcfg Hdata) as [e ->].
       destruct (on_sync_error_run001 e (after_fetch net w req)) as (? & ? & ? & -> & _ & _).
       by apply cycle_ledger_emit, cycle_ledger_after_fetch. }
  rewrite (post_api_sync_run001 _ _ _ _ Hcfg Hdata).
  destruct (data_error data) as [err|].
  { by apply cycle_ledger_emit, cycle_ledger_after_fetch. }
  destruct (data_items data) as [items|]; [|apply cycle_ledger_after_fetch].
  pose proof (sync_posts_ledger_log001 net (botToken_of w req) (chatId_of w req)
                (Part001.postsToProcess items) 0 (after_fetch net w req)) as Hposts.
  unfold wp in Hposts.
  destruct (Part001.sync_posts _ _ _ _ _ _) as [[n|e] w']; cbn [fst snd] in *.
  - by eapply cycle_ledger_posts.
  - destruct (on_sync_error_run001 e w') as (? & ? & ? & -> & _ & _).
    apply cycle_ledger_emit; [done|]. by eapply cycle_ledger_posts.
Qed.

(** X11.  Over any sync request whose listing and ledger hold ids that
    are text the table keeps as it is, in both handlers: the settings and
    the environment are only read; the trace only grows; the ledger after
    the request is the ledger before it plus exactly the ids the trace
    shows as inserted, so nothing is ever removed from it; and each of
    those ids was new and is inserted once, also when the feed lists a post
    twice. *)
Theorem X11_ledger_is_append_only_and_matches_trace :
  ∀ net req w,
    set_Forall (λ id, plain_text id = true) (synced_posts w) →
    Forall (λ p, plain_text (post_id p) = true) (listed_items net w req) →
    cycle_ledger w (Part000.post_api_sync net req w).2
    ∧ cycle_ledger w (Part001.post_api_sync net req w).2
    ∧ synced_posts w ⊆ synced_posts (Part000.post_api_sync net req w).2
    ∧ synced_posts w ⊆ synced_posts (Part001.post_api_sync net req w).2.
Proof.
  intros net req w _ _.
  pose proof (cycle_ledger000 net req w) as H0.
  pose proof (cycle_ledger001 net req w) as H1.
  split_and!; [done|done| |].
  - destruct H0 as (_ & _ & _ & -> & _). apply union_subseteq_r.
  - destruct H1 as (_ & _ & _ & -> & _). apply union_subseteq_r.
Qed.

(** A feed that lists p1 twice: the second turn finds the id in the ledger,
    so it is inserted once. *)
Lemma X11_witness :
  inserted_ids
    (new_events fresh_world
       (Part001.post_api_sync
          (static_net (feed_of [text_post "p1"; text_post "p1"]) accept_all)
          full_request fresh_world).2)
  = [lit "p1"]
  ∧ NoDup (inserted_ids
      (new_events fresh_world
         (Part001.post_api_sync
            (static_net (feed_of [text_post "p1"; text_post "p1"]) accept_all)
            full_request fresh_world).2)).
Proof.
  assert (Hledger : set_Forall (λ id, plain_text id = true) (synced_posts fresh_world))
    by (intros id Hid; by apply not_elem_of_empty in Hid).
  assert (Hfeed : Forall (λ p, plain_text (post_id p) = true)
                    (listed_items
                       (static_net (feed_of [text_post "p1"; text_post "p1"]) accept_all)
                       fresh_world full_request))
    by (repeat constructor).
  destruct (X11_ledger_is_append_only_and_matches_trace
              (static_net (feed_of [text_post "p1"; text_post "p1"]) accept_all)
              full_request fresh_world Hledger Hfeed)
    as (_ & (_ & _ & _ & _ & Hnd & _) & _).
  split; [vm_compute; reflexivity | exact Hnd].
Defined.

Lemma size_ledger_grows (l : list jsstring) (ledger : gset jsstring) :
  NoDup l → (∀ id, id ∈ l → id ∉ ledger) →
  size (list_to_set l ∪ ledger) = (length l + size ledger)%nat.
Proof.
  intros Hnd Hnew. rewrite size_union.
  - by rewrite size_list_to_set.
  - intros id Hin%elem_of_list_to_set Hl. by apply (Hnew id).
Qed.

(** In part_001 the ledger can only change when the loop ran, and then the
    answer is [Sync complete]. *)
Lemma ledger_static001 net req w :
  (∀ m, (Part001.post_api_sync net req w).1 ≠ Returned (SYNC_COMPLETE m)) →
  synced_posts (Part001.post_api_sync net req w).2 = synced_posts w.
Proof.
  destruct (configured w req) eqn:Hcfg.
  2: { by rewrite post_api_sync_unfold001, Hcfg. }
  destruct (listing net w req) as [data|] eqn:Hdata.
  2: { destruct (post_api_sync_no_listing001 _ _ _ Hcfg Hdata) as [e ->].
       by destruct (on_sync_error_run001 e (after_fetch net w req))
         as (? & ? & ? & -> & _ & _). }
  rewrite (post_api_sync_run001 _ _ _ _ Hcfg Hdata).
  destruct (data_error data) as [err|]; [done|].
  destruct (data_items data) as [items|]; [|done].
  destruct (sync_posts_returns001 net (botToken_of w req) (chatId_of w req)
              (Part001.postsToProcess items) 0 (after_fetch net w req))
    as (m & w' & ->).
  intros Hother. by destruct (Hother m).
Qed.

(** X12.  The number a handler reports is the number of rows it added:
    when the answer is [{message: Sync complete, synced: n}], the ledger
    holds exactly [n] ids more than before the request.  In part_001 every
    other answer leaves the ledger as it was. *)
Theorem X12_synced_is_the_growth_of_the_ledger :
  ∀ net req w n,
    ((Part000.post_api_sync net req w).1 = Returned (SYNC_COMPLETE n) →
     size (synced_posts (Part000.post_api_sync net req w).2)
     = (size (synced_posts w) + n)%nat)
    ∧ ((Part001.post_api_sync net req w).1 = Returned (SYNC_COMPLETE n) →
       size (synced_posts (Part001.post_api_sync net req w).2)
       = (size (synced_posts w) + n)%nat)
    ∧ ((∀ m, (Part001.post_api_sync net req w).1 ≠ Returned (SYNC_COMPLETE m)) →
       synced_posts (Part001.post_api_sync net req w).2 = synced_posts w).
Proof.
  intros net req w n.
  split_and!; [| |apply ledger_static001].
  - destruct (answer000 net req w) as (resp0 & w0 & Hrun0 & _ & Hshape0).
    pose proof (cycle_ledger000 net req w) as (_ & _ & _ & Hl0 & Hnd0 & Hnew0).
    rewrite Hrun0 in *. cbn [fst snd] in *.
    intros [= ->]. destruct (Hshape0 eq_refl) as [[=]|[= Hn]].
    rewrite Hl0, size_ledger_grows by done.
    rewrite length_inserted_ids. lia.
  - destruct (answer001 net req w) as (resp1 & w1 & Hrun1 & _ & Hshape1).
    pose proof (cycle_ledger001 net req w) as (_ & _ & _ & Hl1 & Hnd1 & Hnew1).
    rewrite Hrun1 in *. cbn [fst snd] in *.
    intros [= ->]. destruct Hshape1 as [[[=]|[= Hn]]|[[[=] _]|[[=] _]]].
    rewrite Hl1, size_ledger_grows by done.
    rewrite length_inserted_ids. lia.
Qed.

Lemma X12_witness :
  size (synced_posts (Part001.post_api_sync no_text_net full_request fresh_world).2)
  = (size (synced_posts fresh_world) + 1)%nat.
Proof.
  apply (X12_synced_is_the_growth_of_the_ledger no_text_net full_request fresh_world 1).
  vm_compute. reflexivity.
Defined.

(** ** The traffic of a cycle *)

Lemma well_addressed_first bt ci i m : well_addressed bt ci (first_request bt ci i m).
Proof.
  unfold first_request. destruct (truthy i) eqn:Hi.
  - right. by exists i.
  - by left.
Qed.

Lemma well_addressed_sendMessage bt ci m :
  well_addressed bt ci (sendMessage_request bt ci m).
Proof. by left. Qed.

Lemma traffic_refl bt ci w : traffic bt ci 0 0 0 w w.
Proof. exists []. rewrite app_nil_r. by split_and!. Qed.

Lemma traffic_trans bt ci k1 g1 i1 k2 g2 i2 w w1 w' :
  traffic bt ci k1 g1 i1 w w1 → traffic bt ci k2 g2 i2 w1 w' →
  traffic bt ci (k1 + k2) (g1 + g2) (i1 + i2) w w'.
Proof.
  intros (evs1 & Htr1 & Hok1 & Hb1 & Hk1 & Hg1 & Hi1 & Hr1)
         (evs2 & Htr2 & Hok2 & Hb2 & Hk2 & Hg2 & Hi2 & Hr2).
  exists (evs1 ++ evs2). rewrite inserted_ids_app.
  unfold blogger_calls, telegram_calls, gemini_calls in *.
  rewrite !filter_app, !length_app, Hb1, Hb2.
  split_and!; [by rewrite Htr2, Htr1, app_assoc|by apply Forall_app|done|lia..].
Qed.

Lemma traffic_mono bt ci k g i k' g' i' w w' :
  (k ≤ k')%nat → (g ≤ g')%nat → (i ≤ i')%nat →
  traffic bt ci k g i w w' → traffic bt ci k' g' i' w w'.
Proof.
  intros Hk Hg Hi (evs & Htr & Hok & Hb & Hk1 & Hg1 & Hi1 & Hr1).
  exists evs. split_and!; [done..|lia|lia|lia|done].
Qed.

(** An explicit list of events, checked one by one. *)
Ltac traffic_of_list :=
  eexists; split; [try reflexivity; symmetry; apply app_nil_r|];
  split_and!;
  [ repeat first
      [ apply List.Forall_nil
      | apply List.Forall_cons;
        [ first [ exact I | apply well_addressed_first
                | apply well_addressed_sendMessage ] | ] ]
  | reflexivity
  | apply Nat.leb_le; reflexivity
  | apply Nat.leb_le; reflexivity
  | apply Nat.leb_le; reflexivity
  | apply Nat.leb_le; reflexivity ].

Lemma sync_post_traffic000 net bt ci n p w :
  wp (Part000.sync_post net bt ci n p) (λ _ w', traffic bt ci 1 1 1 w w') w.
Proof.
  unfold Part000.sync_post, traffic.
  repeat wp_step; flat_trace; traffic_of_list.
Qed.

Lemma try_sync_post_traffic001 net bt ci n p w :
  wp (Part001.try_sync_post net bt ci n p) (λ _ w', traffic bt ci 2 0 1 w w') w.
Proof.
  unfold Part001.try_sync_post, Part001.sync_post, traffic.
  repeat wp_step; flat_trace; traffic_of_list.
Qed.

Lemma sync_posts_traffic000 net bt ci posts :
  ∀ n w, wp (Part000.sync_posts net bt ci posts n)
           (λ _ w', traffic bt ci (length posts) (length posts) (length posts) w w') w.
Proof.
  induction posts as [|p posts IH]; intros n w.
  - apply wp_ret, traffic_refl.
  - cbn [Part000.sync_posts]. apply wp_bind.
    eapply wp_mono; [apply sync_post_traffic000|].
    intros [n1|e] w1 Hp.
    + eapply wp_mono; [apply IH|]. intros r w' Hps.
      apply (traffic_trans _ _ _ _ _ _ _ _ _ _ _ Hp Hps).
    + eapply traffic_mono; [| | |exact Hp]; cbn [length]; lia.
Qed.

Lemma sync_posts_traffic001 net bt ci posts :
  ∀ n w, wp (Part001.sync_posts net bt ci posts n)
           (λ _ w', traffic bt ci (2 * length posts) 0 (length posts) w w') w.
Proof.
  induction posts as [|p posts IH]; intros n w.
  - apply wp_ret, traffic_refl.
  - cbn [Part001.sync_posts]. apply wp_bind.
    eapply wp_mono; [apply try_sync_post_traffic001|].
    intros [n1|e] w1 Hp.
    + eapply wp_mono; [apply IH|]. intros r w' Hps.
      eapply traffic_mono; [| | |apply (traffic_trans _ _ _ _ _ _ _ _ _ _ _ Hp Hps)];
        cbn [length]; lia.
    + eapply traffic_mono; [| | |exact Hp]; cbn [length]; lia.
Qed.

Lemma cycle_traffic_intro k g i w req w' evs :
  trace w' = trace w ++ evs →
  Forall (event_ok (botToken_of w req) (chatId_of w req)) evs →
  (length (blogger_calls evs) ≤ 1)%nat →
  (length (telegram_calls evs) ≤ k)%nat →
  (length (gemini_calls evs) ≤ g)%nat →
  (length (inserted_ids evs) ≤ i)%nat →
  (length (inserted_ids evs) ≤ length (telegram_calls evs))%nat →
  cycle_traffic k g i w req w'.
Proof.
  intros Htr Hok Hb Hk Hg Hi Hr. unfold cycle_traffic.
  by rewrite (new_events_app _ _ _ Htr).
Qed.

(** Counting the calls of a list that ends or starts with a known event. *)
Ltac count_calls :=
  unfold blogger_calls, telegram_calls, gemini_calls in *;
  rewrite ?inserted_ids_app, ?filter_app, ?length_app, ?filter_cons, ?filter_nil;
  repeat (case_decide; cbn in *; try discriminate);
  cbn in *; try lia.

Lemma cycle_traffic_refl k g i w req : cycle_traffic k g i w req w.
Proof.
  apply (cycle_traffic_intro _ _ _ _ _ _ []);
    [by rewrite app_nil_r|done|count_calls..].
Qed.

Lemma cycle_traffic_console k g i w req w' l d :
  cycle_traffic k g i w req w' →
  cycle_traffic k g i w req (emit (EvConsoleError l d) w').
Proof.
  intros (Htr & Hok & Hb & Hk & Hg & Hi & Hr).
  apply (cycle_traffic_intro _ _ _ _ _ _ (new_events w w' ++ [EvConsoleError l d])).
  - unfold emit; cbn [trace]. rewrite Htr at 1. by rewrite app_assoc.
  - apply Forall_app. split; [done|]. by repeat constructor.
  - count_calls.
  - count_calls.
  - count_calls.
  - count_calls.
  - count_calls.
Qed.

Lemma cycle_traffic_loop net k g i w req w' :
  traffic (botToken_of w req) (chatId_of w req) k g i (after_fetch net w req) w' →
  cycle_traffic k g i w req w'.
Proof.
  intros (evs & Htr & Hok & Hb & Hk & Hg & Hi & Hr).
  unfold after_fetch, emit in Htr; cbn [trace] in Htr. rewrite <- app_assoc in Htr.
  apply (cycle_traffic_intro _ _ _ _ _ _ _ Htr).
  - apply Forall_app. split; [by repeat constructor|done].
  - unfold blogger_calls in *. rewrite filter_app, length_app, Hb.
    rewrite filter_cons, filter_nil. case_decide; cbn [length]; lia.
  - count_calls.
  - count_calls.
  - count_calls.
  - count_calls.
Qed.

Lemma cycle_traffic_after_fetch net k g i w req :
  cycle_traffic k g i w req (after_fetch net w req).
Proof.
  apply (cycle_traffic_loop net). eapply traffic_mono; [| | |apply traffic_refl]; lia.
Qed.

Lemma listed_items_eq net w req data items :
  listing net w req = Some data → data_items data = Some items →
  listed_items net w req = items.
Proof. unfold listed_items. by intros -> ->. Qed.

Lemma cycle_traffic000 net req w :
  cycle_traffic (length (listed_items net w req)) (length (listed_items net w req))
    (length (listed_items net w req)) w req (Part000.post_api_sync net req w).2.
Proof.
  destruct (configured w req) eqn:Hcfg.
  2: { rewrite post_api_sync_unfold000, Hcfg. apply cycle_traffic_refl. }
  destruct (listing net w req) as [data|] eqn:Hdata.
  2: { destruct (post_api_sync_no_listing000 _ _ _ Hcfg Hdata) as [e ->].
       destruct (on_sync_error_run000 e (after_fetch net w req)) as (? & ? & ? & -> & _ & _).
       apply cycle_traffic_console, (cycle_traffic_after_fetch net). }
  rewrite (post_api_sync_run000 _ _ _ _ Hcfg Hdata).
  destruct (data_items data) as [items|] eqn:Hitems;
    [|apply (cycle_traffic_after_fetch net)].
  rewrite (listed_items_eq _ _ _ _ _ Hdata Hitems).
  pose proof (sync_posts_traffic000 net (botToken_of w req) (chatId_of w req) items 0
                (after_fetch net w req)) as Hposts.
  unfold wp in Hposts.
  destruct (Part000.sync_posts _ _ _ _ _ _) as [[n|e] w']; cbn [fst snd] in *.
  - by apply (cycle_traffic_loop net).
  - destruct (on_sync_error_run000 e w') as (? & ? & ? & -> & _ & _).
    by apply cycle_traffic_console, (cycle_traffic_loop net).
Qed.

Lemma cycle_traffic001 net req w :
  cycle_traffic (2 * length (take 3 (listed_items net w req))) 0
    (length (take 3 (listed_items net w req))) w req
    (Part001.post_api_sync net req w).2.
Proof.
  destruct (configured w req) eqn:Hcfg.
  2: { rewrite post_api_sync_unfold001, Hcfg. apply cycle_traffic_console, cycle_traffic_refl. }
  destruct (listing net w req) as [data|] eqn:Hdata.
  2: { destruct (post_api_sync_no_listing001 _ _ _ Hcfg Hdata) as [e ->].
       destruct (on_sync_error_run001 e (after_fetch net w req)) as (? & ? & ? & -> & _ & _).
       apply cycle_traffic_console, (cycle_traffic_after_fetch net). }
  rewrite (post_api_sync_run001 _ _ _ _ Hcfg Hdata).
  destruct (data_error data) as [err|].
  { apply cycle_traffic_console, (cycle_traffic_after_fetch net). }
  destruct (data_items data) as [items|] eqn:Hitems;
    [|apply (cycle_traffic_after_fetch net)].
  rewrite (listed_items_eq _ _ _ _ _ Hdata Hitems).
  pose proof (sync_posts_traffic001 net (botToken_of w req) (chatId_of w req)
                (Part001.postsToProcess items) 0 (after_fetch net w req)) as Hposts.
  unfold wp, Part001.postsToProcess in *.
  destruct (Part001.sync_posts _ _ _ _ _ _) as [[n|e] w']; cbn [fst snd] in *.
  - by apply (cycle_traffic_loop net).
  - destruct (on_sync_error_run001 e w') as (? & ? & ? & -> & _ & _).
    by apply cycle_traffic_console, (cycle_traffic_loop net).
Qed.

(** X13.  What one request costs in part_001, whatever the feed and the
    answers of the services: one Blogger call at most, no Gemini call, at
    most two Telegram calls for each of the first three listed items, so
    six at most, and at most three ledger inserts, never more than there
    were Telegram calls. *)
Theorem X13_part001_traffic_is_bounded :
  ∀ net req w,
    let evs := new_events w (Part001.post_api_sync net req w).2 in
    (length (blogger_calls evs) ≤ 1)%nat
    ∧ gemini_calls evs = []
    ∧ (length (telegram_calls evs) ≤ 2 * length (take 3 (listed_items net w req)))%nat
    ∧ (length (telegram_calls evs) ≤ 6)%nat
    ∧ (length (inserted_ids evs) ≤ length (telegram_calls evs))%nat
    ∧ (length (inserted_ids evs) ≤ 3)%nat.
Proof.
  intros net req w evs. subst evs.
  destruct (cycle_traffic001 net req w) as (_ & _ & Hb & Hk & Hg & Hi & Hr).
  assert (H3 : (length (take 3 (listed_items net w req)) ≤ 3)%nat).
  { rewrite length_take. lia. }
  split_and!; [done| |done|lia|done|lia].
  destruct (gemini_calls _); [done|cbn in Hg; lia].
Qed.

(** X14.  What one request costs in part_000: one Blogger call at most, and
    for each listed item at most one Gemini call and one Telegram call; the
    inserts are never more than the Telegram calls. *)
Theorem X14_part000_traffic_follows_the_feed :
  ∀ net req w,
    let evs := new_events w (Part000.post_api_sync net req w).2 in
    (length (blogger_calls evs) ≤ 1)%nat
    ∧ (length (gemini_calls evs) ≤ length (listed_items net w req))%nat
    ∧ (length (telegram_calls evs) ≤ length (listed_items net w req))%nat
    ∧ (length (inserted_ids evs) ≤ length (telegram_calls evs))%nat.
Proof.
  intros net req w evs. subst evs.
  destruct (cycle_traffic000 net req w) as (_ & _ & Hb & Hk & Hg & Hi & Hr).
  by split_and!.
Qed.

(** X15.  Every Telegram call of a cycle, in both handlers, goes to the
    bot and the chat the request resolved to (its own values first, then
    the stored ones, then the environment): it is a [sendMessage] or a
    [sendPhoto] on [https://api.telegram.org/bot<token>/], to that chat,
    and a photo always has a non-empty address. *)
Theorem X15_telegram_calls_use_the_resolved_credentials :
  ∀ net req w tg r,
    (EvTelegram tg r ∈ new_events w (Part000.post_api_sync net req w).2 →
     well_addressed (botToken_of w req) (chatId_of w req) tg)
    ∧ (EvTelegram tg r ∈ new_events w (Part001.post_api_sync net req w).2 →
       well_addressed (botToken_of w req) (chatId_of w req) tg).
Proof.
  intros net req w tg r.
  destruct (cycle_traffic000 net req w) as (_ & Hok0 & _).
  destruct (cycle_traffic001 net req w) as (_ & Hok1 & _).
  rewrite Forall_forall in Hok0, Hok1.
  split; intros Hin; [apply (Hok0 _ Hin) | apply (Hok1 _ Hin)].
Qed.

Lemma X15_witness :
  well_addressed (botToken_of fresh_world full_request) (chatId_of fresh_world full_request)
    (sendMessage_request (Some (lit "token")) (Some (lit "@channel")) p2_message).
Proof.
  apply (X15_telegram_calls_use_the_resolved_credentials no_photo_net full_request
           fresh_world _ accepted).
  apply (list_elem_of_lookup_2 _ 3%nat). vm_compute. reflexivity.
Defined.

(** ** A listing that cannot be had *)

(** X16.  When the request is configured and Blogger cannot be reached, or
    answers with something that is not JSON, the cycle ends in the handler's
    [catch] with the error [e] that was thrown: the rejection of [fetch]
    when the call was rejected, a SyntaxError of [response.json()] (with
    whatever message the parser gives) when the body is not JSON.  The
    answer has status 500 and carries the message of [e] (after
    [Sync failed:] in part_001); there is one console line, one Blogger
    call, no Telegram call and the ledger is as it was. *)
Theorem X16_no_listing_is_a_500 :
  ∀ net req w,
    configured w req = true →
    listing net w req = None →
    let answer := blogger net (trace w) (bloggerUrl (blogId_of w req) (apiKey_of w req)) in
    ∃ e,
      (∀ msg, answer = FetchRejected msg → e = TypeError msg)
      ∧ (∀ o j, answer = FetchResponse o j → j = None ∧ ∃ msg, e = SyntaxError msg)
      ∧ Part000.post_api_sync net req w
        = (Returned (json_response 500 [("error", JString (message e))]),
           emit (EvConsoleError (lit "Sync Error:") (LogError e)) (after_fetch net w req))
      ∧ Part001.post_api_sync net req w
        = (Returned (json_response 500
                       [("error", JString (lit "Sync failed: " ++ message e))]),
           emit (EvConsoleError (lit "Global Sync Error:") (LogError e))
             (after_fetch net w req))
      ∧ telegram_calls (new_events w (Part000.post_api_sync net req w).2) = []
      ∧ telegram_calls (new_events w (Part001.post_api_sync net req w).2) = []
      ∧ length (blogger_calls (new_events w (Part000.post_api_sync net req w).2)) = 1%nat
      ∧ length (blogger_calls (new_events w (Part001.post_api_sync net req w).2)) = 1%nat
      ∧ length (console_errors (new_events w (Part000.post_api_sync net req w).2)) = 1%nat
      ∧ length (console_errors (new_events w (Part001.post_api_sync net req w).2)) = 1%nat
      ∧ synced_posts (Part000.post_api_sync net req w).2 = synced_posts w
      ∧ synced_posts (Part001.post_api_sync net req w).2 = synced_posts w.
Proof.
  intros net req w Hcfg Hdata answer.
  exists (fetch_error answer).
  set (e := fetch_error answer).
  assert (H0 : Part000.post_api_sync net req w
               = (Returned (json_response 500 [("error", JString (message e))]),
                  emit (EvConsoleError (lit "Sync Error:") (LogError e))
                    (after_fetch net w req))).
  { rewrite post_api_sync_unfold000, Hcfg. subst e answer. unfold listing in Hdata.
    unfold Part000.sync_configured, try_catch, mbind, M_bind, bind, fetch_blogger,
      after_fetch, json.
    destruct (blogger _ _ _) as [msg|o [d|]]; [|done|]; reflexivity. }
  assert (H1 : Part001.post_api_sync net req w
               = (Returned (json_response 500
                              [("error", JString (lit "Sync failed: " ++ message e))]),
                  emit (EvConsoleError (lit "Global Sync Error:") (LogError e))
                    (after_fetch net w req))).
  { rewrite post_api_sync_unfold001, Hcfg. subst e answer. unfold listing in Hdata.
    unfold Part001.sync_configured, try_catch, mbind, M_bind, bind, fetch_blogger,
      after_fetch, json.
    destruct (blogger _ _ _) as [msg|o [d|]]; [|done|]; reflexivity. }
  rewrite H0, H1. cbn [snd].
  split_and!; try done.
  - intros msg Hmsg. subst e. by rewrite Hmsg.
  - intros o j Hj. subst e. unfold listing in Hdata. fold answer in Hdata.
    rewrite Hj in Hdata |- *. destruct j; [done|].
    split; [done|]. by eexists.
  - unfold after_fetch. by erewrite new_events_app; [|flat_trace; reflexivity].
  - unfold after_fetch. by erewrite new_events_app; [|flat_trace; reflexivity].
  - unfold after_fetch. by erewrite new_events_app; [|flat_trace; reflexivity].
  - unfold after_fetch. by erewrite new_events_app; [|flat_trace; reflexivity].
  - unfold after_fetch. by erewrite new_events_app; [|flat_trace; reflexivity].
  - unfold after_fetch. by erewrite new_events_app; [|flat_trace; reflexivity].
Qed.

Lemma X16_witness :
  Part001.post_api_sync offline_net full_request fresh_world
  = (Returned (json_response 500
                 [("error", JString (lit "Sync failed: " ++ lit "fetch failed"))]),
     emit (EvConsoleError (lit "Global Sync Error:")
             (LogError (TypeError (lit "fetch failed"))))
       (after_fetch offline_net fresh_world full_request)).
Proof.
  destruct (X16_no_listing_is_a_500 offline_net full_request fresh_world eq_refl eq_refl)
    as (e & Hrejected & _ & _ & H1 & _).
  rewrite (Hrejected (lit "fetch failed") eq_refl) in H1.
  exact H1.
Defined.

(** ** One turn, answer by answer *)

(** X17.  part_001, a post new to the ledger for which no image was found:
    one [sendMessage] with the full message is all the turn sends.
    Accepted, the id is inserted and counted.  Refused with a JSON error,
    the refusal is logged and that is all: there is no retry without an
    image.  Refused with another body or not sent at all, the turn throws
    (and the loop's [catch] logs it). *)
Theorem X17_part001_text_post_is_sent_once :
  ∀ net bt ci n p w imageUrl details,
    post_id p ∉ synced_posts w →
    resolve_image p w = (Returned imageUrl, w) →
    truthy imageUrl = false →
    Part001.extractMovieDetails p w = (Returned details, w) →
    let text := sendMessage_request bt ci (fullMessage_of details p) in
    Part001.sync_post net bt ci n p w =
      match telegram net (trace w) text with
      | FetchResponse true j => (Returned (S n), after_delivery w (post_id p) text j)
      | FetchResponse false (Some e) =>
          (Returned n,
           after_events w [EvTelegram text (FetchResponse false (Some e));
                           EvConsoleError (lit "Telegram Send Failed:") (LogTelegram e)])
      | FetchResponse false None =>
          (Thrown NOT_JSON, after_events w [EvTelegram text (FetchResponse false None)])
      | FetchRejected msg =>
          (Thrown (TypeError msg), after_events w [EvTelegram text (FetchRejected msg)])
      end.
Proof.
  intros net bt ci n p w imageUrl details Hnew Himg Hfalsy Hdetails text.
  unfold Part001.sync_post, mbind, M_bind, bind, select_synced.
  rewrite bool_decide_eq_false_2 by done. cbn [negb].
  rewrite Himg, Hdetails. unfold first_request. rewrite Hfalsy. fold text.
  rewrite fetch_telegram_run.
  destruct (telegram net (trace w) text) as [msg|[|] [e|]];
    cbn [ok json json_body]; unfold insert_synced, console_error, throw, mret, M_ret, ret;
    cbn [synced_posts emit]; rewrite ?bool_decide_eq_false_2 by done;
    cbv beta iota; rewrite ?Hfalsy;
    unfold after_delivery, after_events, emit; flat_trace; reflexivity.
Qed.

Lemma X17_witness :
  Part001.sync_post no_text_net (Some (lit "token")) (Some (lit "@channel")) 0
    (text_post "p1") fresh_world
  = (Returned 0%nat,
     after_events fresh_world
       [EvTelegram
          (sendMessage_request (Some (lit "token")) (Some (lit "@channel")) p1_message)
          refused;
        EvConsoleError (lit "Telegram Send Failed:") (LogTelegram (lit "{error_code:400}"))]).
Proof.
  rewrite (X17_part001_text_post_is_sent_once no_text_net
             (Some (lit "token")) (Some (lit "@channel")) 0%nat (text_post "p1")
             fresh_world None
             (lit "<b>Movie p1</b>" ++ [LF; LF] ++ lit "Plot of the movie...")
             (not_elem_of_empty _)
             eq_refl eq_refl eq_refl).
  reflexivity.
Defined.

(** X18.  part_000, a post new to the ledger whose image resolution and
    caption are done: the turn makes one Telegram call, a photo when there
    is an image and a text otherwise, and no other.  Accepted, the id is
    inserted and counted.  Refused, nothing is logged, nothing is retried
    and the turn ends normally with the count unchanged.  Not sent at all,
    the turn throws. *)
Theorem X18_part000_one_call_per_post :
  ∀ net bt ci n p w imageUrl details w1,
    post_id p ∉ synced_posts w →
    resolve_image p w = (Returned imageUrl, w) →
    Part000.extractMovieDetails net (post_content p) w = (Returned details, w1) →
    synced_posts w1 = synced_posts w →
    let call := first_request bt ci imageUrl (fullMessage_of details p) in
    is_sendMessage call = negb (truthy imageUrl)
    ∧ Part000.sync_post net bt ci n p w =
        match telegram net (trace w1) call with
        | FetchResponse true j => (Returned (S n), after_delivery w1 (post_id p) call j)
        | FetchResponse false j =>
            (Returned n, after_events w1 [EvTelegram call (FetchResponse false j)])
        | FetchRejected msg =>
            (Thrown (TypeError msg), after_events w1 [EvTelegram call (FetchRejected msg)])
        end.
Proof.
  intros net bt ci n p w imageUrl details w1 Hnew Himg Hdetails Hledger call.
  split.
  { subst call. unfold first_request. by destruct (truthy imageUrl). }
  unfold Part000.sync_post, mbind, M_bind, bind, select_synced.
  rewrite bool_decide_eq_false_2 by done. cbn [negb].
  rewrite Himg, Hdetails. fold call.
  rewrite fetch_telegram_run.
  destruct (telegram net (trace w1) call) as [msg|[|] j];
    cbn [ok]; unfold insert_synced, mret, M_ret, ret;
    cbn [synced_posts emit]; rewrite ?Hledger, ?bool_decide_eq_false_2 by done;
    cbv beta iota; unfold after_delivery, after_events, emit; flat_trace;
    rewrite ?Hledger; reflexivity.
Qed.

Lemma X18_witness :
  (Part000.sync_post refusing_net (Some (lit "token")) (Some (lit "@channel")) 0
     (photo_post "p2") fresh_world).1 = Returned 0%nat
  ∧ telegram_answers
      (trace (Part000.sync_post refusing_net (Some (lit "token")) (Some (lit "@channel")) 0
                (photo_post "p2") fresh_world).2) = [false].
Proof.
  destruct (X18_part000_one_call_per_post refusing_net
              (Some (lit "token")) (Some (lit "@channel")) 0%nat (photo_post "p2")
              fresh_world (Some (lit "https://img.example/poster.png"))
              (lit "Title and plot")
              (emit (EvGemini (lit "<p>Poster inside</p>")
                       (GeminiText (Some (lit "Title and plot")))) fresh_world)
              (not_elem_of_empty _) eq_refl eq_refl eq_refl) as [_ Hrun].
  rewrite Hrun. split; reflexivity.
Defined.

(** ** The caption of part_000 (lines 48-77) *)

(** X19.  The Gemini caption never fails and is never empty.  It is the
    text Gemini answered when there is one; a fixed text when the answer has
    no text; and, when the call is rejected, another fixed text after one
    console line.  One Gemini call is made, and nothing else happens. *)
Theorem X19_gemini_caption_never_fails :
  ∀ net content w,
    let answer := gemini net (trace w) (tpl content) in
    let w1 := emit (EvGemini (tpl content) answer) w in
    ∃ details w',
      Part000.extractMovieDetails net content w = (Returned details, w')
      ∧ details ≠ []
      ∧ synced_posts w' = synced_posts w
      ∧ gemini_calls (new_events w w') = [EvGemini (tpl content) answer]
      ∧ telegram_calls (new_events w w') = []
      ∧ match answer with
        | GeminiText text =>
            w' = w1
            ∧ details = (if truthy text then tpl text
                         else lit "Failed to extract details.")
        | GeminiRejected msg =>
            w' = emit (EvConsoleError (lit "Gemini Error:") (LogError (Error msg))) w1
            ∧ details = lit "Error extracting details."
        end.
Proof.
  intros net content w answer w1. subst w1. unfold Part000.extractMovieDetails.
  fold answer. destruct answer as [msg|text].
  - eexists _, _. split_and!; [reflexivity|done|done| | |done|done].
    + by erewrite new_events_app; [|flat_trace; reflexivity].
    + by erewrite new_events_app; [|flat_trace; reflexivity].
  - eexists _, _. split_and!; [reflexivity| |done| | |done|].
    + unfold js_or. by destruct text as [[|c t]|].
    + by erewrite new_events_app; [|flat_trace; reflexivity].
    + by erewrite new_events_app; [|flat_trace; reflexivity].
    + unfold js_or. by destruct (truthy text).
Qed.

(** ** The loop of part_001 (lines 176-234) *)

(** X20.  In part_001 nothing that happens to a post stops the loop: a turn
    always returns a count, the loop over any list returns a count, and
    every post of the list gets its turn after the posts before it,
    whatever these did. *)
Theorem X20_part001_loop_always_completes :
  ∀ net bt ci before p after n w,
    ∃ n1 w1 n2 w2 m w',
      Part001.sync_posts net bt ci before n w = (Returned n1, w1)
      ∧ Part001.try_sync_post net bt ci n1 p w1 = (Returned n2, w2)
      ∧ Part001.sync_posts net bt ci after n2 w2 = (Returned m, w')
      ∧ Part001.sync_posts net bt ci (before ++ p :: after) n w = (Returned m, w')
      ∧ (n ≤ n1 ≤ n2)%nat ∧ (n2 ≤ m)%nat.
Proof.
  intros net bt ci before p after n w.
  destruct (every_post_gets_its_turn001 net bt ci before p after n w)
    as (n1 & w1 & n2 & w2 & H1 & H2 & Hall).
  destruct (sync_posts_returns001 net bt ci after n2 w2) as (m & w' & H3).
  exists n1, w1, n2, w2, m, w'. rewrite Hall.
  split_and!; [done..| | |].
  - pose proof (sync_posts_effect001 net bt ci before n w) as [(_ & _ & evs & _ & _ & _ & Hc) _].
    rewrite H1 in Hc. cbn [fst] in Hc. rewrite (Hc n1 eq_refl). lia.
  - pose proof (try_sync_post_effect001 net bt ci n1 p w1)
      as [(_ & _ & evs & _ & [(_ & _ & [Hr|[e Hr]])|(_ & _ & Hr & _)]) _];
      rewrite H2 in Hr; cbn [fst] in Hr; [injection Hr as ->; lia|done|injection Hr as ->; lia].
  - pose proof (sync_posts_effect001 net bt ci after n2 w2) as [(_ & _ & evs & _ & _ & _ & Hc) _].
    rewrite H3 in Hc. cbn [fst] in Hc. rewrite (Hc m eq_refl). lia.
Qed.

(** X21.  In part_001 a turn that does not end with the post's id in the
    ledger leaves a [console.error] line: the failure of an item is always
    on the server's console, whichever step failed. *)
Theorem X21_part001_failed_turn_is_logged :
  ∀ net bt ci n p w,
    let w' := (Part001.try_sync_post net bt ci n p w).2 in
    post_id p ∉ synced_posts w' → console_errors (new_events w w') ≠ [].
Proof.
  intros net bt ci n p w w' Hout.
  by destruct (failed_turn_is_logged001 net bt ci n p w) as [Hin|Hlog].
Qed.

Lemma X21_witness :
  console_errors
    (new_events fresh_world
       (Part001.try_sync_post refusing_net (Some (lit "token")) (Some (lit "@channel")) 0
          (photo_post "p2") fresh_world).2) ≠ [].
Proof.
  apply (X21_part001_failed_turn_is_logged refusing_net
           (Some (lit "token")) (Some (lit "@channel")) 0%nat (photo_post "p2") fresh_world).
  by_compute.
Defined.

(** ** The listing, as part_001 reads it (lines 159-174) *)

(** X22.  part_001, a configured request whose listing carries an [error]
    object: the cycle ends at once with status 400 and
    [Blogger API Error:] followed by the upstream message (or
    [Unknown error]); the error is logged, the items are not looked at,
    Telegram is not called and the ledger is as it was. *)
Theorem X22_part001_upstream_error_is_a_400 :
  ∀ net req w data e,
    configured w req = true →
    listing net w req = Some data →
    data_error data = Some e →
    Part001.post_api_sync net req w
    = (Returned (UPSTREAM_ERROR e),
       emit (EvConsoleError (lit "Blogger API Error:") (LogBlogger e))
         (after_fetch net w req))
    ∧ status (UPSTREAM_ERROR e) = 400%nat
    ∧ field "error" (UPSTREAM_ERROR e)
      = Some (JString (lit "Blogger API Error: "
                         ++ (if truthy (error_message e) then tpl (error_message e)
                             else lit "Unknown error")))
    ∧ telegram_calls (new_events w (Part001.post_api_sync net req w).2) = []
    ∧ synced_posts (Part001.post_api_sync net req w).2 = synced_posts w.
Proof.
  intros net req w data e Hcfg Hdata Herr.
  destruct (upstream_error001 net req w data e Hcfg Hdata Herr) as (Hrun & Hst & Htg & Hl).
  split_and!; [done|done| |done|done].
  unfold UPSTREAM_ERROR, js_or. by destruct (truthy (error_message e)).
Qed.

Lemma X22_witness :
  Part001.post_api_sync bad_key_net full_request fresh_world
  = (Returned (UPSTREAM_ERROR bad_key),
     emit (EvConsoleError (lit "Blogger API Error:") (LogBlogger bad_key))
       (after_fetch bad_key_net fresh_world full_request)).
Proof.
  apply (X22_part001_upstream_error_is_a_400 bad_key_net full_request fresh_world
           bad_key_data bad_key eq_refl eq_refl eq_refl).
Defined.

(** X23.  part_001 works on the first three listed items only: its answer
    and its effects are those of the loop over these three, and an id that
    the request adds to the ledger is the id of one of them. *)
Theorem X23_part001_only_the_first_three :
  ∀ net req w data items,
    configured w req = true →
    listing net w req = Some data →
    data_error data = None →
    data_items data = Some items →
    Part001.post_api_sync net req w =
      match Part001.sync_posts net (botToken_of w req) (chatId_of w req)
              (take 3 items) 0 (after_fetch net w req) with
      | (Returned n, w') => (Returned (SYNC_COMPLETE n), w')
      | (Thrown e, w') => Part001.on_sync_error e w'
      end
    ∧ (∃ n, (Part001.post_api_sync net req w).1 = Returned (SYNC_COMPLETE n)
            ∧ (n ≤ 3)%nat)
    ∧ ∀ id, id ∈ synced_posts (Part001.post_api_sync net req w).2 →
            id ∉ synced_posts w →
            ∃ p, p ∈ take 3 items ∧ post_id p = id.
Proof.
  intros net req w data items Hcfg Hdata Herr Hitems.
  destruct (only_first_three001 net req w data items Hcfg Hdata Herr Hitems)
    as [Hrun Hids].
  split_and!; [done| |done].
  destruct (cycle_traffic001 net req w) as (_ & _ & _ & _ & _ & Hi & _).
  rewrite length_take in Hi.
  destruct (answer001 net req w) as (resp & w' & Hans & _ & Hshape).
  rewrite Hans in Hi |- *. cbn [fst snd] in *.
  rewrite Hrun in Hans.
  destruct (sync_posts_returns001 net (botToken_of w req) (chatId_of w req)
              (take 3 items) 0 (after_fetch net w req)) as (m & w'' & Hloop).
  rewrite Hloop in Hans. injection Hans as <- <-.
  exists m. split; [done|].
  destruct Hshape as [[[=]|[= Hm]]|[[[=] _]|[[=] _]]].
  rewrite length_inserted_ids in Hi. lia.
Qed.

Lemma X23_witness :
  ∃ n, (Part001.post_api_sync four_posts_net full_request fresh_world).1
       = Returned (SYNC_COMPLETE n) ∧ (n ≤ 3)%nat.
Proof.
  apply (X23_part001_only_the_first_three four_posts_net full_request fresh_world
           four_posts_data four_posts eq_refl eq_refl eq_refl eq_refl).
Defined.

(** X24.  A configured request whose listing has no items, or an empty
    list of items, and no error: both handlers answer 200 with
    [synced: 0], having made the Blogger call and nothing else. *)
Theorem X24_empty_listing_is_a_success :
  ∀ net req w data,
    configured w req = true →
    listing net w req = Some data →
    data_error data = None →
    data_items data = None ∨ data_items data = Some [] →
    ∃ resp,
      Part000.post_api_sync net req w = (Returned resp, after_fetch net w req)
      ∧ Part001.post_api_sync net req w = (Returned resp, after_fetch net w req)
      ∧ status resp = 200%nat
      ∧ field "synced" resp = Some (JNumber 0)
      ∧ new_events w (after_fetch net w req)
        = [EvBlogger (bloggerUrl (blogId_of w req) (apiKey_of w req))
             (blogger net (trace w) (bloggerUrl (blogId_of w req) (apiKey_of w req)))].
Proof.
  intros net req w data Hcfg Hdata Herr Hitems.
  destruct (empty_feed net req w data Hcfg Hdata Herr Hitems) as (resp & Hresp & H0 & H1).
  exists resp. split_and!; [done|done| | |].
  - by destruct Hresp as [-> | ->].
  - by destruct Hresp as [-> | ->].
  - unfold after_fetch. by erewrite new_events_app; [|flat_trace; reflexivity].
Qed.

Lemma X24_witness :
  ∃ resp,
    Part000.post_api_sync empty_net full_request fresh_world
    = (Returned resp, after_fetch empty_net fresh_world full_request)
    ∧ Part001.post_api_sync empty_net full_request fresh_world
      = (Returned resp, after_fetch empty_net fresh_world full_request)
    ∧ status resp = 200%nat.
Proof.
  destruct (X24_empty_listing_is_a_success empty_net full_request fresh_world empty_data
              eq_refl eq_refl eq_refl (or_intror eq_refl))
    as (resp & H0 & H1 & Hst & _).
  exists resp. split_and!; [exact H0 | exact H1 | exact Hst].
Defined.

(** ** The image of a post (part_000 lines 171-175, part_001 lines 183-187) *)

(** X25.  A structured image wins: when the first image of the list has a
    non-empty address, that address is the image, the body is not looked at
    and may be missing.  Otherwise the body decides: the image is what the
    pattern finds in it, and there is an image exactly when the pattern
    finds one.  Image resolution never touches the world. *)
Theorem X25_resolve_image :
  ∀ p w,
    (truthy (first_image_url p) = true →
     resolve_image p w = (Returned (first_image_url p), w))
    ∧ (∀ content,
         truthy (first_image_url p) = false → post_content p = Some content →
         ∃ imageUrl,
           resolve_image p w = (Returned imageUrl, w)
           ∧ (truthy imageUrl = true ↔ is_Some (match_img content))
           ∧ (truthy imageUrl = true → imageUrl = match_img content)).
Proof.
  intros p w. split.
  - intros Himg. unfold resolve_image. by rewrite Himg.
  - intros content Himg Hbody. unfold resolve_image. rewrite Himg, Hbody. cbn [negb].
    destruct (match_img content) as [g|] eqn:Hm.
    + exists (Some g). destruct (match_img_Some _ _ Hm) as [Ht _].
      split_and!; [done| |done]. split; [by eexists|done].
    + exists (first_image_url p). split_and!; [done| |].
      * rewrite Himg. split; [done|]. by intros [? [=]].
      * by rewrite Himg.
Qed.

Lemma X25_witness :
  resolve_image (photo_post "p2") fresh_world
  = (Returned (first_image_url (photo_post "p2")), fresh_world).
Proof.
  apply (X25_resolve_image (photo_post "p2") fresh_world). reflexivity.
Defined.

(** X26.  part_001, a post new to the ledger whose first Telegram call is
    accepted, with or without an image: that call is the only one, the id
    is inserted right after it and the count grows by one. *)
Theorem X26_part001_accepted_at_once :
  ∀ net bt ci n p w imageUrl details j,
    post_id p ∉ synced_posts w →
    resolve_image p w = (Returned imageUrl, w) →
    Part001.extractMovieDetails p w = (Returned details, w) →
    let call := first_request bt ci imageUrl (fullMessage_of details p) in
    telegram net (trace w) call = FetchResponse true j →
    Part001.sync_post net bt ci n p w
    = (Returned (S n), after_delivery w (post_id p) call j)
    ∧ is_sendMessage call = negb (truthy imageUrl)
    ∧ request_text call = fullMessage_of details p.
Proof.
  intros net bt ci n p w imageUrl details j Hnew Himg Hdetails call Hcall.
  split_and!.
  - unfold Part001.sync_post, mbind, M_bind, bind, select_synced.
    rewrite bool_decide_eq_false_2 by done. cbn [negb].
    rewrite Himg, Hdetails. fold call.
    rewrite fetch_telegram_run, Hcall. cbn [ok].
    unfold insert_synced, mret, M_ret, ret. cbn [synced_posts emit].
    rewrite bool_decide_eq_false_2 by done.
    unfold after_delivery, emit. flat_trace. reflexivity.
  - subst call. unfold first_request. by destruct (truthy imageUrl).
  - apply request_text_first.
Qed.

Lemma X26_witness :
  (Part001.sync_post four_posts_net (Some (lit "token")) (Some (lit "@channel")) 0
     (text_post "p1") fresh_world).1 = Returned 1%nat.
Proof.
  destruct (X26_part001_accepted_at_once four_posts_net
              (Some (lit "token")) (Some (lit "@channel")) 0%nat (text_post "p1")
              fresh_world None
              (lit "<b>Movie p1</b>" ++ [LF; LF] ++ lit "Plot of the movie...")
              (Some (lit "{}")) (not_elem_of_empty _) eq_refl eq_refl eq_refl)
    as (Hrun & _).
  rewrite Hrun. reflexivity.
Defined.
